(** * OpenH264 shim: a shallow embedding of [openh264_shim.c]

    The shim wraps the OpenH264 encoder object ([ISVCEncoder]) behind five C
    functions.  This development embeds

      - [h264_encoder_create]     (openh264_shim.c, lines 25-120),
      - [h264_encoder_encode]     (lines 122-214),
      - [h264_encoder_force_idr]  (lines 216-228),
      - [h264_encoder_destroy]    (lines 230-243),
      - [h264_encoder_version]    (lines 245-247),

    and proves the properties of the frame pipeline, of the one-shot
    force-keyframe flag and of parameter derivation.

    Conventions.
      - A C [int] is a [Z]; arithmetic that the C code performs on [int]s is
        written with [int_add] and [int_mul], which wrap modulo 2^32.
      - A pointer is an [option]: [None] is [NULL], [Some x] points at an
        object whose current content is [x].
      - An array given by a pointer and an element count ([sLayerInfo] with
        [iLayerNum], [pNalLengthInByte] with [iNalCount]) is the list of its
        elements; the [for] loops over it are recursions over that list,
        carrying the loop's accumulator.
      - A byte buffer given by a bare pointer ([out_buf], [pBsBuf]) is the
        list of the bytes of the object it points into; [memcpy] outside the
        object is undefined behaviour and yields [None].
      - Calls into the engine and the allocator are recorded, in order, in a
        list of [Event]s. *)

From Stdlib Require Import String ZArith List Lia Bool.
Import ListNotations.
Local Open Scope Z_scope.

(** ** C integers *)

Definition INT_MIN : Z := -2147483648.
Definition INT_MAX : Z := 2147483647.

Definition int_range (z : Z) : Prop := INT_MIN <= z <= INT_MAX.

(** Two's-complement wrap-around of a mathematical integer into [int]. *)
Definition wrap_int (z : Z) : Z := (z + 2147483648) mod 4294967296 - 2147483648.

Definition int_add (a b : Z) : Z := wrap_int (a + b).
Definition int_mul (a b : Z) : Z := wrap_int (a * b).

(** ** Result codes (openh264_shim.h, [h264_result_t]) *)

Definition H264_SUCCESS : Z := 0.
Definition H264_ERROR_INVALID_PARAM : Z := -1.
Definition H264_ERROR_MEMORY_ALLOC : Z := -2.
Definition H264_ERROR_ENCODER_INIT : Z := -3.
Definition H264_ERROR_ENCODE_FAILED : Z := -4.
Definition H264_ERROR_NULL_ENCODER : Z := -5.
Definition H264_ERROR_OUTPUT_BUFFER_TOO_SMALL : Z := -6.

(** ** The engine's types ([wels/codec_api.h], [wels/codec_def.h])

    Only the parts the shim reads or writes are represented.  The
    declarations live in the engine's headers, outside this repository.
    Fields are [int] unless their name or the note at the field says
    otherwise (ui: [unsigned int], b: [bool], f: [float], e: an
    enumeration; [iMultipleThreadIdc] is an [unsigned short]), and a field
    holds the value the shim assigns to it after the conversion to the
    field's type. *)

Definition cmResultSuccess : Z := 0.
Definition videoFormatI420 : Z := 23.

Inductive EVideoFrameType : Type :=
| videoFrameTypeInvalid
| videoFrameTypeIDR
| videoFrameTypeI
| videoFrameTypeP
| videoFrameTypeSkip
| videoFrameTypeIPMixed.

Definition EVideoFrameType_eqb (a b : EVideoFrameType) : bool :=
  match a, b with
  | videoFrameTypeInvalid, videoFrameTypeInvalid
  | videoFrameTypeIDR, videoFrameTypeIDR
  | videoFrameTypeI, videoFrameTypeI
  | videoFrameTypeP, videoFrameTypeP
  | videoFrameTypeSkip, videoFrameTypeSkip
  | videoFrameTypeIPMixed, videoFrameTypeIPMixed => true
  | _, _ => false
  end.

Inductive EUsageType : Type :=
| CAMERA_VIDEO_REAL_TIME
| SCREEN_CONTENT_REAL_TIME
| CAMERA_VIDEO_NON_REAL_TIME.

Inductive RC_MODES : Type :=
| RC_QUALITY_MODE
| RC_BITRATE_MODE
| RC_BUFFERBASED_MODE
| RC_TIMESTAMP_MODE
| RC_OFF_MODE.

Inductive EParameterSetStrategy : Type :=
| CONSTANT_ID
| INCREASING_ID
| SPS_LISTING
| SPS_LISTING_AND_PPS_INCREASING
| SPS_PPS_LISTING.

Inductive EProfileIdc : Type :=
| PRO_UNKNOWN
| PRO_BASELINE
| PRO_MAIN
| PRO_EXTENDED
| PRO_HIGH.

Inductive ELevelIdc : Type :=
| LEVEL_UNKNOWN
| LEVEL_3_0
| LEVEL_3_1
| LEVEL_3_2
| LEVEL_4_0.

Inductive SliceModeEnum : Type :=
| SM_SINGLE_SLICE
| SM_FIXEDSLCNUM_SLICE
| SM_RASTER_SLICE
| SM_SIZELIMITED_SLICE.

Inductive ENCODER_OPTION : Type :=
| ENCODER_OPTION_DATAFORMAT
| ENCODER_OPTION_IDR_INTERVAL
| ENCODER_OPTION_BITRATE.

(** A C [float] (IEEE 754 binary32): one whose value is an integer, given
    by that value, or any other one, given by its 32 bits. *)
Inductive cfloat : Type :=
| float_integral (value : Z)
| float_bits (bits : Z).

(** The integer nearest to [z] that a binary32 represents: [z] itself when
    it has at most 24 significant bits, else [z] rounded to 24 significant
    bits, a tie going to the even significand.  No [int] overflows the
    range of binary32. *)
Definition round_to_float (z : Z) : Z :=
  let m := Z.abs z in
  let e := Z.log2 m in
  if e <? 24 then z
  else
    let sh := e - 23 in
    let q := Z.shiftr m sh in
    let r := m mod 2 ^ sh in
    let half := 2 ^ (sh - 1) in
    let q' := if (half <? r) || ((r =? half) && Z.odd q) then q + 1 else q in
    Z.sgn z * Z.shiftl q' sh.

(** The conversion [(float)z] of an [int]. *)
Definition float_of_int (z : Z) : cfloat := float_integral (round_to_float z).

Record SSliceArgument : Type := {
  uiSliceMode : SliceModeEnum;
  uiSliceNum : Z;
  uiSliceSizeConstraint : Z
}.

Record SSpatialLayerConfig : Type := {
  iVideoWidth : Z;
  iVideoHeight : Z;
  fFrameRate : cfloat;
  iSpatialBitrate : Z;
  iMaxSpatialBitrate : Z;
  uiProfileIdc : EProfileIdc;
  uiLevelIdc : ELevelIdc;
  iDLayerQp : Z;
  sSliceArgument : SSliceArgument
}.

Record SEncParamExt : Type := {
  iUsageType : EUsageType;
  iPicWidth : Z;
  iPicHeight : Z;
  iTargetBitrate : Z;
  iRCMode : RC_MODES;
  fMaxFrameRate : cfloat;
  iTemporalLayerNum : Z;
  iSpatialLayerNum : Z;
  sSpatialLayers : list SSpatialLayerConfig;
  iComplexityMode : Z;
  uiIntraPeriod : Z;
  iNumRefFrame : Z;
  eSpsPpsIdStrategy : EParameterSetStrategy;
  bPrefixNalAddingCtrl : bool;
  bEnableSSEI : bool;
  bSimulcastAVC : bool;
  iPaddingFlag : Z;
  iEntropyCodingModeFlag : Z;
  bEnableFrameSkip : bool;
  iMaxBitrate : Z;
  iMaxQp : Z;
  iMinQp : Z;
  bEnableLongTermReference : bool;
  iLtrMarkPeriod : Z;
  iMultipleThreadIdc : Z; (* unsigned short *)
  iLoopFilterDisableIdc : Z;
  iLoopFilterAlphaC0Offset : Z;
  iLoopFilterBetaOffset : Z;
  bEnableDenoise : bool;
  bEnableBackgroundDetection : bool;
  bEnableAdaptiveQuant : bool
}.

Record SSourcePicture : Type := {
  iColorFormat : Z;
  iStride : list Z;
  pData : list (list Byte.byte);
  pic_iPicWidth : Z;
  pic_iPicHeight : Z
}.

Record SLayerBSInfo : Type := {
  pNalLengthInByte : list Z;
  pBsBuf : list Byte.byte
}.

Record SFrameBSInfo : Type := {
  sLayerInfo : list SLayerBSInfo;
  eFrameType : EVideoFrameType
}.

(** [iNalCount] and [iLayerNum] are the element counts of the two arrays. *)
Definition iNalCount (l : SLayerBSInfo) : Z := Z.of_nat (List.length (pNalLengthInByte l)).
Definition iLayerNum (info : SFrameBSInfo) : Z := Z.of_nat (List.length (sLayerInfo info)).

(** The engine object.  [ISVCEncoder] is an abstract C++ class; the shim only
    calls the six methods below.  Each method takes the engine's state and
    returns the new one next to its result. *)
Class ISVCEncoder (E : Type) : Type := {
  GetDefaultParams : E -> SEncParamExt;
  InitializeExt : E -> SEncParamExt -> Z * E;
  Uninitialize : E -> E;
  SetOption : E -> ENCODER_OPTION -> Z -> E;
  ForceIntraFrame : E -> bool -> E;
  EncodeFrame : E -> SSourcePicture -> Z * SFrameBSInfo * E
}.

(** Calls that leave the shim, in the order they are made. *)
Inductive Event : Type :=
| EvCalloc
| EvFree
| EvWelsCreateSVCEncoder
| EvWelsDestroySVCEncoder
| EvGetDefaultParams
| EvInitializeExt (param : SEncParamExt)
| EvUninitialize
| EvSetOption (opt : ENCODER_OPTION) (val : Z)
| EvForceIntraFrame (b : bool)
| EvEncodeFrame (pic : SSourcePicture).

Definition is_EvForceIntraFrame (e : Event) : bool :=
  match e with
  | EvForceIntraFrame _ => true
  | _ => false
  end.

(** ** The shim's context ([encoder_context_t], lines 15-23) *)

Record encoder_context_t (E : Type) : Type := {
  encoder : option E;
  width : Z;
  height : Z;
  fps : Z;
  bitrate : Z;
  keyint : Z;
  force_idr : Z
}.

Arguments encoder {E} _.
Arguments width {E} _.
Arguments height {E} _.
Arguments fps {E} _.
Arguments bitrate {E} _.
Arguments keyint {E} _.
Arguments force_idr {E} _.
Arguments Build_encoder_context_t {E} _ _ _ _ _ _ _.

(** The opaque handle [h264_encoder_t] is a [void*] to the context. *)
Definition h264_encoder_t (E : Type) : Type := option (encoder_context_t E).

Definition set_force_idr {E : Type} (ctx : encoder_context_t E) (f : Z) : encoder_context_t E :=
  Build_encoder_context_t (encoder ctx) (width ctx) (height ctx) (fps ctx)
    (bitrate ctx) (keyint ctx) f.

Definition set_encoder {E : Type} (ctx : encoder_context_t E) (e : option E) : encoder_context_t E :=
  Build_encoder_context_t e (width ctx) (height ctx) (fps ctx)
    (bitrate ctx) (keyint ctx) (force_idr ctx).

(** ** Memory *)

(** [memcpy (dst + offset, src, n)]: the [n] bytes at the start of [src]
    replace the [n] bytes of [dst] that start at [offset].  The [int] size is
    converted to [size_t], so a negative [n] is a size no object has; reading
    past the end of [src] or writing past the end of [dst] is undefined. *)
Definition memcpy (dst : list Byte.byte) (offset : Z) (src : list Byte.byte) (n : Z)
  : option (list Byte.byte) :=
  if (0 <=? offset) && (0 <=? n) && (n <=? Z.of_nat (List.length src))
     && (offset + n <=? Z.of_nat (List.length dst))
  then Some (firstn (Z.to_nat offset) dst ++ firstn (Z.to_nat n) src
             ++ skipn (Z.to_nat (offset + n)) dst)
  else None.

(** Conversion of an [int] to [unsigned int]. *)
Definition to_uint (z : Z) : Z := z mod 4294967296.

(** Conversion of an [int] to [unsigned short]. *)
Definition to_ushort (z : Z) : Z := z mod 65536.

(** ** Parameter derivation (lines 59-104) *)

Definition spatial_layer0 (width height fps bitrate : Z) : SSpatialLayerConfig :=
  {| iVideoWidth := width;
     iVideoHeight := height;
     fFrameRate := float_of_int fps;
     iSpatialBitrate := bitrate;
     iMaxSpatialBitrate := int_mul bitrate 2;
     uiProfileIdc := PRO_BASELINE;
     uiLevelIdc := LEVEL_3_1;
     iDLayerQp := 26;
     sSliceArgument := {| uiSliceMode := SM_SINGLE_SLICE;
                          uiSliceNum := 1;
                          uiSliceSizeConstraint := 0 |} |}.

(** Writing [param.sSpatialLayers[0]]: the other layers keep the defaults. *)
Definition set_sSpatialLayers0 (layers : list SSpatialLayerConfig) (l0 : SSpatialLayerConfig)
  : list SSpatialLayerConfig :=
  match layers with
  | [] => []
  | _ :: rest => l0 :: rest
  end.

(** The assignments of lines 60-104 applied to the engine's defaults. *)
Definition derive_params (param : SEncParamExt) (width height fps bitrate keyint threads : Z)
  : SEncParamExt :=
  {| iUsageType := CAMERA_VIDEO_REAL_TIME;
     iPicWidth := width;
     iPicHeight := height;
     iTargetBitrate := bitrate;
     iRCMode := RC_BITRATE_MODE;
     fMaxFrameRate := float_of_int fps;
     iTemporalLayerNum := 1;
     iSpatialLayerNum := 1;
     sSpatialLayers :=
       set_sSpatialLayers0 (sSpatialLayers param) (spatial_layer0 width height fps bitrate);
     iComplexityMode := iComplexityMode param;
     uiIntraPeriod := to_uint keyint;
     iNumRefFrame := iNumRefFrame param;
     eSpsPpsIdStrategy := CONSTANT_ID;
     bPrefixNalAddingCtrl := false;
     bEnableSSEI := true;
     bSimulcastAVC := false;
     iPaddingFlag := 0;
     iEntropyCodingModeFlag := 0;
     bEnableFrameSkip := true;
     iMaxBitrate := int_mul bitrate 2;
     iMaxQp := iMaxQp param;
     iMinQp := iMinQp param;
     bEnableLongTermReference := false;
     iLtrMarkPeriod := 30;
     iMultipleThreadIdc := to_ushort (if threads >? 0 then threads else 1);
     iLoopFilterDisableIdc := 0;
     iLoopFilterAlphaC0Offset := 0;
     iLoopFilterBetaOffset := 0;
     bEnableDenoise := false;
     bEnableBackgroundDetection := true;
     bEnableAdaptiveQuant := true |}.

(** ** The frame pipeline's loops *)

(** Lines 179-181 and 200-202: [acc += pNalLengthInByte[nal]] for each NAL. *)
Fixpoint sum_nal_lengths (acc : Z) (lens : list Z) : Z :=
  match lens with
  | [] => acc
  | n :: rest => sum_nal_lengths (int_add acc n) rest
  end.

(** Lines 177-182: the total over all layers, accumulated in [total_size]. *)
Fixpoint total_size_loop (total_size : Z) (layers : list SLayerBSInfo) : Z :=
  match layers with
  | [] => total_size
  | l :: rest => total_size_loop (sum_nal_lengths total_size (pNalLengthInByte l)) rest
  end.

(** Lines 199-202: [layer_size] of one layer. *)
Definition layer_size_of (layer_info : SLayerBSInfo) : Z :=
  sum_nal_lengths 0 (pNalLengthInByte layer_info).

(** How the copy loop of lines 194-210 ends: it runs to its end with the
    final [offset], it returns from inside the loop at line 205, or a
    [memcpy] is undefined.  The first two carry the buffer as it is then;
    [CopyUndefined] carries the buffer as it was before the undefined
    [memcpy], only to mark where execution stopped being defined: what the
    code leaves in memory from there on is not described. *)
Inductive copy_outcome : Type :=
| CopyDone (offset : Z) (buf : list Byte.byte)
| CopyTooSmall (buf : list Byte.byte)
| CopyUndefined (buf : list Byte.byte).

Fixpoint copy_loop (offset : Z) (out_buf : list Byte.byte) (out_buf_size : Z)
  (layers : list SLayerBSInfo) : copy_outcome :=
  match layers with
  | [] => CopyDone offset out_buf
  | layer_info :: rest =>
      let layer_size := layer_size_of layer_info in
      if int_add offset layer_size >? out_buf_size then CopyTooSmall out_buf
      else
        match memcpy out_buf offset (pBsBuf layer_info) layer_size with
        | None => CopyUndefined out_buf
        | Some out_buf' => copy_loop (int_add offset layer_size) out_buf' out_buf_size rest
        end
  end.

(** The state in which [h264_encoder_encode] leaves its caller. [ret] is the
    returned code, or [None] when the call ran into undefined behaviour; the
    other fields are the context behind the handle, the three output objects
    and the calls made into the engine.  When [ret] is [None] the three
    output objects are given as they were before the undefined [memcpy];
    they say nothing about what the code leaves in them. *)
Record encode_result (E : Type) : Type := {
  ret : option Z;
  handle_after : h264_encoder_t E;
  out_buf_after : option (list Byte.byte);
  out_size_after : option Z;
  is_keyframe_after : option Z;
  calls : list Event
}.

Arguments ret {E} _.
Arguments handle_after {E} _.
Arguments out_buf_after {E} _.
Arguments out_size_after {E} _.
Arguments is_keyframe_after {E} _.
Arguments calls {E} _.
Arguments Build_encode_result {E} _ _ _ _ _ _.

(** What [h264_encoder_create] finds outside the shim: whether [calloc]
    returns memory, and what [WelsCreateSVCEncoder] returns and stores. *)
Record Environment (E : Type) : Type := {
  calloc_succeeds : bool;
  WelsCreateSVCEncoder : Z * option E
}.

Arguments calloc_succeeds {E} _.
Arguments WelsCreateSVCEncoder {E} _.

Section Shim.

Context {E : Type} `{ISVCEncoder E}.

(** ** [h264_encoder_create] (lines 25-120) *)

Definition h264_encoder_create (env : Environment E)
  (width height fps bitrate keyint threads : Z) : h264_encoder_t E * list Event :=
  if (width <=? 0) || (height <=? 0) || (fps <=? 0) || (bitrate <=? 0) || (keyint <=? 0)
  then (None, [])
  else if negb (calloc_succeeds env) then (None, [EvCalloc])
  else
    let ctx := Build_encoder_context_t None width height fps bitrate keyint 0 in
    let '(ret, created) := WelsCreateSVCEncoder env in
    match (if negb (ret =? 0) then None else created) with
    | None => (None, [EvCalloc; EvWelsCreateSVCEncoder; EvFree])
    | Some eng =>
        let param := derive_params (GetDefaultParams eng)
                       width height fps bitrate keyint threads in
        let '(ret, eng) := InitializeExt eng param in
        if negb (ret =? cmResultSuccess)
        then (None, [EvCalloc; EvWelsCreateSVCEncoder; EvGetDefaultParams;
                     EvInitializeExt param; EvUninitialize;
                     EvWelsDestroySVCEncoder; EvFree])
        else
          let video_format := videoFormatI420 in
          let eng := SetOption eng ENCODER_OPTION_DATAFORMAT video_format in
          (Some (set_encoder ctx (Some eng)),
           [EvCalloc; EvWelsCreateSVCEncoder; EvGetDefaultParams;
            EvInitializeExt param; EvSetOption ENCODER_OPTION_DATAFORMAT video_format])
    end.

(** ** [h264_encoder_encode] (lines 122-214) *)

Definition source_picture (ctx : encoder_context_t E) (y u v : list Byte.byte)
  (stride_y stride_u stride_v : Z) : SSourcePicture :=
  {| iColorFormat := videoFormatI420;
     iStride := [stride_y; stride_u; stride_v];
     pData := [y; u; v];
     pic_iPicWidth := width ctx;
     pic_iPicHeight := height ctx |}.

Definition h264_encoder_encode (encoder_h : h264_encoder_t E)
  (y u v : option (list Byte.byte)) (stride_y stride_u stride_v : Z)
  (out_buf : option (list Byte.byte)) (out_buf_size : Z)
  (out_size is_keyframe : option Z) : encode_result E :=
  match encoder_h, y, u, v, out_buf, out_size, is_keyframe with
  | Some ctx, Some y, Some u, Some v, Some buf, Some _, Some _ =>
      match encoder ctx with
      | None =>
          Build_encode_result (Some H264_ERROR_NULL_ENCODER) encoder_h
            out_buf out_size is_keyframe []
      | Some eng =>
          (* lines 138-139 *)
          let out_size := Some 0 in
          let is_keyframe := Some 0 in
          let pic := source_picture ctx y u v stride_y stride_u stride_v in
          (* lines 156-159 *)
          let '(eng, ctx, forced) :=
            if negb (force_idr ctx =? 0)
            then (ForceIntraFrame eng true, set_force_idr ctx 0, [EvForceIntraFrame true])
            else (eng, ctx, []) in
          (* line 165 *)
          let '(ret, info, eng) := EncodeFrame eng pic in
          let ctx := set_encoder ctx (Some eng) in
          let calls := forced ++ [EvEncodeFrame pic] in
          if negb (ret =? cmResultSuccess)
          then Build_encode_result (Some H264_ERROR_ENCODE_FAILED) (Some ctx)
                 (Some buf) out_size is_keyframe calls
          else if EVideoFrameType_eqb (eFrameType info) videoFrameTypeSkip
          then Build_encode_result (Some H264_SUCCESS) (Some ctx)
                 (Some buf) out_size is_keyframe calls
          else
            let total_size := total_size_loop 0 (sLayerInfo info) in
            if total_size >? out_buf_size
            then Build_encode_result (Some H264_ERROR_OUTPUT_BUFFER_TOO_SMALL) (Some ctx)
                   (Some buf) out_size is_keyframe calls
            else
              let is_keyframe :=
                if EVideoFrameType_eqb (eFrameType info) videoFrameTypeIDR
                   || EVideoFrameType_eqb (eFrameType info) videoFrameTypeI
                then Some 1 else is_keyframe in
              match copy_loop 0 buf out_buf_size (sLayerInfo info) with
              | CopyTooSmall buf' =>
                  Build_encode_result (Some H264_ERROR_OUTPUT_BUFFER_TOO_SMALL) (Some ctx)
                    (Some buf') out_size is_keyframe calls
              | CopyUndefined buf' =>
                  Build_encode_result None (Some ctx)
                    (Some buf') out_size is_keyframe calls
              | CopyDone offset buf' =>
                  Build_encode_result (Some H264_SUCCESS) (Some ctx)
                    (Some buf') (Some offset) is_keyframe calls
              end
      end
  | _, _, _, _, _, _, _ =>
      Build_encode_result (Some H264_ERROR_INVALID_PARAM) encoder_h
        out_buf out_size is_keyframe []
  end.

(** ** [h264_encoder_force_idr] (lines 216-228) *)

Definition h264_encoder_force_idr (encoder_h : h264_encoder_t E) : Z * h264_encoder_t E :=
  match encoder_h with
  | None => (H264_ERROR_INVALID_PARAM, encoder_h)
  | Some ctx =>
      match encoder ctx with
      | None => (H264_ERROR_NULL_ENCODER, encoder_h)
      | Some _ => (H264_SUCCESS, Some (set_force_idr ctx 1))
      end
  end.

(** ** [h264_encoder_destroy] (lines 230-243)

    Returns the calls made; the handle is dead afterwards. *)
Definition h264_encoder_destroy (encoder_h : h264_encoder_t E) : list Event :=
  match encoder_h with
  | None => []
  | Some ctx =>
      match encoder ctx with
      | Some _ => [EvUninitialize; EvWelsDestroySVCEncoder; EvFree]
      | None => [EvFree]
      end
  end.

(** ** [h264_encoder_version] (lines 245-247) *)
Definition h264_encoder_version : string := "OpenH264 Shim v1.0.0".


End Shim.

(** ** What the engine hands back, read as mathematics *)

(** The sum of the NAL lengths of one layer, without wrap-around. *)
Definition nal_total (lens : list Z) : Z := fold_right Z.add 0 lens.

(** The sum of all NAL lengths of all layers of a frame. *)
Definition frame_total (layers : list SLayerBSInfo) : Z :=
  fold_right (fun l t => nal_total (pNalLengthInByte l) + t) 0 layers.

(** The bytes of one layer: as many bytes of [pBsBuf] as its NALs are long. *)
Definition layer_bytes (l : SLayerBSInfo) : list Byte.byte :=
  firstn (Z.to_nat (nal_total (pNalLengthInByte l))) (pBsBuf l).

(** The layers' bytes one after the other, in the order the engine lists them. *)
Definition frame_bytes (layers : list SLayerBSInfo) : list Byte.byte :=
  concat (map layer_bytes layers).

(** Every NAL length is a length: none is negative. *)
Definition lengths_nonneg (layers : list SLayerBSInfo) : bool :=
  forallb (fun l => forallb (fun n => 0 <=? n) (pNalLengthInByte l)) layers.

(** Every layer's [pBsBuf] holds at least the bytes its NAL lengths announce. *)
Definition bitstreams_present (layers : list SLayerBSInfo) : bool :=
  forallb (fun l => nal_total (pNalLengthInByte l) <=? Z.of_nat (List.length (pBsBuf l))) layers.

(** The engine state on which [EncodeFrame] is called (after lines 156-159). *)
Definition engine_at_encode {E : Type} `{ISVCEncoder E} (ctx : encoder_context_t E) (eng : E) : E :=
  if negb (force_idr ctx =? 0) then ForceIntraFrame eng true else eng.

(** The context after lines 156-159: the flag is cleared if it was set. *)
Definition ctx_at_encode {E : Type} (ctx : encoder_context_t E) : encoder_context_t E :=
  if negb (force_idr ctx =? 0) then set_force_idr ctx 0 else ctx.

(** The engine calls of one [h264_encoder_encode] that reaches line 165. *)
Definition calls_of_encode {E : Type} (ctx : encoder_context_t E) (pic : SSourcePicture)
  : list Event :=
  (if negb (force_idr ctx =? 0) then [EvForceIntraFrame true] else []) ++ [EvEncodeFrame pic].

(** The [offset] the copy loop has reached after the layers [done]. *)
Definition offset_after (done : list SLayerBSInfo) : Z :=
  fold_left (fun offset l => int_add offset (layer_size_of l)) done 0.

Definition outcome_buf (o : copy_outcome) : list Byte.byte :=
  match o with
  | CopyDone _ buf => buf
  | CopyTooSmall buf => buf
  | CopyUndefined buf => buf
  end.

Definition is_CopyTooSmall (o : copy_outcome) : bool :=
  match o with
  | CopyTooSmall _ => true
  | _ => false
  end.

(** ** A scripted engine

    An engine that replays a prepared list of [EncodeFrame] results; it
    accepts every configuration.  It instantiates [ISVCEncoder] for the
    concrete runs below. *)

Definition scripted_defaults : SEncParamExt :=
  {| iUsageType := SCREEN_CONTENT_REAL_TIME;
     iPicWidth := 0;
     iPicHeight := 0;
     iTargetBitrate := 0;
     iRCMode := RC_QUALITY_MODE;
     fMaxFrameRate := float_of_int 60;
     iTemporalLayerNum := 1;
     iSpatialLayerNum := 1;
     sSpatialLayers := repeat (spatial_layer0 0 0 0 0) 4;
     iComplexityMode := 1;
     uiIntraPeriod := 0;
     iNumRefFrame := -1;
     eSpsPpsIdStrategy := INCREASING_ID;
     bPrefixNalAddingCtrl := false;
     bEnableSSEI := false;
     bSimulcastAVC := false;
     iPaddingFlag := 0;
     iEntropyCodingModeFlag := 0;
     bEnableFrameSkip := true;
     iMaxBitrate := 0;
     iMaxQp := 51;
     iMinQp := 0;
     bEnableLongTermReference := false;
     iLtrMarkPeriod := 30;
     iMultipleThreadIdc := 0;
     iLoopFilterDisableIdc := 0;
     iLoopFilterAlphaC0Offset := 0;
     iLoopFilterBetaOffset := 0;
     bEnableDenoise := false;
     bEnableBackgroundDetection := true;
     bEnableAdaptiveQuant := true |}.

Definition ScriptedEngine : Type := list (Z * SFrameBSInfo).

Definition scripted_EncodeFrame (e : ScriptedEngine) (pic : SSourcePicture)
  : Z * SFrameBSInfo * ScriptedEngine :=
  match e with
  | [] => (1, {| sLayerInfo := []; eFrameType := videoFrameTypeInvalid |}, [])
  | (r, info) :: rest => (r, info, rest)
  end.

#[export] Instance ScriptedEngine_ISVCEncoder : ISVCEncoder ScriptedEngine := {
  GetDefaultParams := fun _ => scripted_defaults;
  InitializeExt := fun e _ => (cmResultSuccess, e);
  Uninitialize := fun e => e;
  SetOption := fun e _ _ => e;
  ForceIntraFrame := fun e _ => e;
  EncodeFrame := scripted_EncodeFrame
}.

(** Concrete data for the runs. *)

Definition layer_sps : SLayerBSInfo :=
  {| pNalLengthInByte := [2; 1];
     pBsBuf := [Byte.x00; Byte.x01; Byte.x67; Byte.xff] |}.

Definition layer_slice : SLayerBSInfo :=
  {| pNalLengthInByte := [3];
     pBsBuf := [Byte.x00; Byte.x01; Byte.x65] |}.

Definition frame_idr : SFrameBSInfo :=
  {| sLayerInfo := [layer_sps; layer_slice]; eFrameType := videoFrameTypeIDR |}.

Definition frame_p : SFrameBSInfo :=
  {| sLayerInfo := [layer_slice]; eFrameType := videoFrameTypeP |}.

Definition frame_skip : SFrameBSInfo :=
  {| sLayerInfo := []; eFrameType := videoFrameTypeSkip |}.

Definition plane : list Byte.byte := [Byte.x10; Byte.x10; Byte.x10; Byte.x10].

Definition buffer8 : list Byte.byte := repeat Byte.xaa 8.

Definition scripted_ctx (script : ScriptedEngine) (flag : Z) : encoder_context_t ScriptedEngine :=
  Build_encoder_context_t (Some script) 2 2 30 500000 60 flag.

Definition scripted_env (script : ScriptedEngine) : Environment ScriptedEngine :=
  {| calloc_succeeds := true; WelsCreateSVCEncoder := (0, Some script) |}.

(** An engine that rejects every configuration and encodes nothing. *)
Inductive RejectingEngine : Type :=
| rejecting_engine.

#[export] Instance RejectingEngine_ISVCEncoder : ISVCEncoder RejectingEngine := {
  GetDefaultParams := fun _ => scripted_defaults;
  InitializeExt := fun e _ => (1, e);
  Uninitialize := fun e => e;
  SetOption := fun e _ _ => e;
  ForceIntraFrame := fun e _ => e;
  EncodeFrame := fun e _ =>
    (1, {| sLayerInfo := []; eFrameType := videoFrameTypeInvalid |}, e)
}.

Definition rejecting_env : Environment RejectingEngine :=
  {| calloc_succeeds := true; WelsCreateSVCEncoder := (0, Some rejecting_engine) |}.

(** An environment in which [WelsCreateSVCEncoder] fails. *)
Definition engineless_env : Environment ScriptedEngine :=
  {| calloc_succeeds := true; WelsCreateSVCEncoder := (1, None) |}.

(** ** Sequences of calls on one handle

    A caller drives a handle through any number of [h264_encoder_encode] and
    [h264_encoder_force_idr] calls, one after the other.  The handle each
    call leaves is the handle of the next; the run ends at a call whose
    behaviour is undefined. *)

Inductive ShimCall : Type :=
| CallEncode (y u v : option (list Byte.byte)) (stride_y stride_u stride_v : Z)
    (out_buf : option (list Byte.byte)) (out_buf_size : Z)
    (out_size is_keyframe : option Z)
| CallForceIdr.

Definition is_CallForceIdr (c : ShimCall) : bool :=
  match c with
  | CallForceIdr => true
  | CallEncode _ _ _ _ _ _ _ _ _ _ => false
  end.

Definition is_EvEncodeFrame (e : Event) : bool :=
  match e with
  | EvEncodeFrame _ => true
  | _ => false
  end.

Definition is_EvFree (e : Event) : bool :=
  match e with
  | EvFree => true
  | _ => false
  end.

Definition is_EvWelsDestroySVCEncoder (e : Event) : bool :=
  match e with
  | EvWelsDestroySVCEncoder => true
  | _ => false
  end.

(** The calls that give a resource back. *)
Definition is_release_event (e : Event) : bool :=
  match e with
  | EvFree | EvWelsDestroySVCEncoder | EvUninitialize => true
  | _ => false
  end.

Definition count_events (p : Event -> bool) (log : list Event) : nat :=
  length (filter p log).

(** 1 if a keyframe request is waiting on the handle, else 0. *)
Definition pending_request {E : Type} (h : h264_encoder_t E) : nat :=
  match h with
  | Some ctx => if force_idr ctx =? 0 then 0%nat else 1%nat
  | None => 0%nat
  end.

(** The configuration a context is created with. *)
Definition configuration {E : Type} (ctx : encoder_context_t E) : Z * Z * Z * Z * Z :=
  (width ctx, height ctx, fps ctx, bitrate ctx, keyint ctx).

Section Sessions.

Context {E : Type} `{ISVCEncoder E}.

Fixpoint run_calls (h : h264_encoder_t E) (cs : list ShimCall)
  : h264_encoder_t E * list Event :=
  match cs with
  | [] => (h, [])
  | CallEncode y u v stride_y stride_u stride_v out_buf out_buf_size out_size is_keyframe
    :: rest =>
      let res := h264_encoder_encode h y u v stride_y stride_u stride_v
                   out_buf out_buf_size out_size is_keyframe in
      match ret res with
      | None => (handle_after res, calls res)
      | Some _ =>
          let '(h', log) := run_calls (handle_after res) rest in
          (h', calls res ++ log)
      end
  | CallForceIdr :: rest => run_calls (snd (h264_encoder_force_idr h)) rest
  end.

(** A whole life: create, a sequence of calls, destroy. *)
Definition lifecycle (env : Environment E)
  (width height fps bitrate keyint threads : Z) (cs : list ShimCall) : list Event :=
  let '(h, created) := h264_encoder_create env width height fps bitrate keyint threads in
  let '(h', used) := run_calls h cs in
  created ++ used ++ h264_encoder_destroy h'.

End Sessions.

(** A concrete sequence: two requests, a good call, a call with a buffer
    that is too small, a call with a [NULL] plane, a request. *)
Definition session_calls : list ShimCall :=
  [ CallForceIdr;
    CallForceIdr;
    CallEncode (Some plane) (Some plane) (Some plane) 2 1 1 (Some buffer8) 8 (Some 0) (Some 0);
    CallEncode (Some plane) (Some plane) (Some plane) 2 1 1 (Some buffer8) 2 (Some 0) (Some 0);
    CallEncode None (Some plane) (Some plane) 2 1 1 (Some buffer8) 8 (Some 0) (Some 0);
    CallForceIdr ].

(** * Properties *)

(** ** Integer arithmetic without overflow *)

Lemma wrap_int_id (z : Z) : int_range z -> wrap_int z = z.
Proof.
  unfold int_range, INT_MIN, INT_MAX, wrap_int. intros Hz.
  rewrite Z.mod_small; lia.
Qed.

Lemma int_add_exact (a b : Z) : int_range (a + b) -> int_add a b = a + b.
Proof. apply wrap_int_id. Qed.

Lemma nal_total_nonneg (lens : list Z) :
  forallb (fun n => 0 <=? n) lens = true -> 0 <= nal_total lens.
Proof.
  induction lens as [|n lens IH]; simpl; [lia|].
  rewrite andb_true_iff, Z.leb_le. intros [Hn Hl]. specialize (IH Hl). lia.
Qed.

Lemma frame_total_nonneg (layers : list SLayerBSInfo) :
  lengths_nonneg layers = true -> 0 <= frame_total layers.
Proof.
  induction layers as [|l layers IH]; simpl; [lia|].
  rewrite andb_true_iff. intros [Hl Hr].
  pose proof (nal_total_nonneg _ Hl). specialize (IH Hr). lia.
Qed.

(** The inner loop computes the mathematical sum as long as that fits. *)
Lemma sum_nal_lengths_exact (lens : list Z) : forall acc,
  forallb (fun n => 0 <=? n) lens = true ->
  0 <= acc -> acc + nal_total lens <= INT_MAX ->
  sum_nal_lengths acc lens = acc + nal_total lens.
Proof.
  induction lens as [|n lens IH]; simpl; intros acc Hnn Hacc Hfit; [lia|].
  apply andb_true_iff in Hnn as [Hn Hl]. apply Z.leb_le in Hn.
  pose proof (nal_total_nonneg _ Hl) as Hpos.
  rewrite int_add_exact by (unfold int_range, INT_MIN, INT_MAX in *; lia).
  rewrite IH; try assumption; lia.
Qed.

Lemma layer_size_of_exact (l : SLayerBSInfo) :
  forallb (fun n => 0 <=? n) (pNalLengthInByte l) = true ->
  nal_total (pNalLengthInByte l) <= INT_MAX ->
  layer_size_of l = nal_total (pNalLengthInByte l).
Proof.
  intros Hnn Hfit. unfold layer_size_of.
  rewrite sum_nal_lengths_exact; try assumption; lia.
Qed.

(** So does the outer loop of lines 177-182. *)
Lemma total_size_loop_exact (layers : list SLayerBSInfo) : forall total_size,
  lengths_nonneg layers = true ->
  0 <= total_size -> total_size + frame_total layers <= INT_MAX ->
  total_size_loop total_size layers = total_size + frame_total layers.
Proof.
  induction layers as [|l layers IH]; simpl; intros total_size Hnn Hacc Hfit; [lia|].
  apply andb_true_iff in Hnn as [Hl Hr].
  pose proof (nal_total_nonneg _ Hl) as Hpos.
  pose proof (frame_total_nonneg _ Hr) as Hpos'.
  rewrite sum_nal_lengths_exact by (try assumption; lia).
  rewrite IH; try assumption; lia.
Qed.

(** ** [memcpy] *)

Lemma memcpy_at_split (pre post src : list Byte.byte) (n : Z) :
  0 <= n -> n <= Z.of_nat (length src) -> n <= Z.of_nat (length post) ->
  memcpy (pre ++ post) (Z.of_nat (length pre)) src n
  = Some ((pre ++ firstn (Z.to_nat n) src) ++ skipn (Z.to_nat n) post).
Proof.
  intros Hn Hsrc Hpost. unfold memcpy.
  rewrite length_app, Nat2Z.inj_add.
  replace ((0 <=? Z.of_nat (length pre)) && (0 <=? n) && (n <=? Z.of_nat (length src))
           && (Z.of_nat (length pre) + n <=? Z.of_nat (length pre) + Z.of_nat (length post)))
    with true
    by (symmetry; rewrite !andb_true_iff, !Z.leb_le; lia).
  f_equal. rewrite <- app_assoc. rewrite Nat2Z.id.
  rewrite firstn_app, firstn_all, Nat.sub_diag. simpl. rewrite app_nil_r.
  do 2 f_equal.
  rewrite Z2Nat.inj_add, Nat2Z.id by lia.
  rewrite skipn_app, skipn_all2 by lia. simpl.
  f_equal. lia.
Qed.

(** A [memcpy] that stays below [cap] leaves everything from [cap] on as it
    was, and does not change the size of the object. *)
Lemma memcpy_keeps_tail (dst src dst' : list Byte.byte) (offset n cap : Z) :
  memcpy dst offset src n = Some dst' ->
  offset + n <= cap ->
  length dst' = length dst /\ skipn (Z.to_nat cap) dst' = skipn (Z.to_nat cap) dst.
Proof.
  unfold memcpy. intros Hcpy Hcap.
  destruct ((0 <=? offset) && (0 <=? n) && (n <=? Z.of_nat (length src))
            && (offset + n <=? Z.of_nat (length dst))) eqn:Hok; [|discriminate].
  rewrite !andb_true_iff, !Z.leb_le in Hok. destruct Hok as [[[Ho Hn] Hs] Hd].
  injection Hcpy as <-.
  assert (Hl1 : length (firstn (Z.to_nat offset) dst) = Z.to_nat offset)
    by (rewrite length_firstn; lia).
  assert (Hl2 : length (firstn (Z.to_nat n) src) = Z.to_nat n)
    by (rewrite length_firstn; lia).
  split.
  - rewrite !length_app, Hl1, Hl2, length_skipn. lia.
  - rewrite app_assoc, skipn_app, length_app, Hl1, Hl2.
    rewrite skipn_all2 by (rewrite length_app, Hl1, Hl2; lia).
    simpl. rewrite skipn_skipn. f_equal. lia.
Qed.

(** ** The copy loop *)

Lemma frame_total_app (done rest : list SLayerBSInfo) :
  frame_total (done ++ rest) = frame_total done + frame_total rest.
Proof.
  induction done as [|l done IH]; simpl; [reflexivity|]. rewrite IH. lia.
Qed.

(** The loop over [done ++ rest] is the loop over [done] followed, if that
    one runs to its end, by the loop over [rest]. *)
Lemma copy_loop_app (cap : Z) (done rest : list SLayerBSInfo) : forall offset buf,
  copy_loop offset buf cap (done ++ rest)
  = match copy_loop offset buf cap done with
    | CopyDone offset' buf' => copy_loop offset' buf' cap rest
    | stopped => stopped
    end.
Proof.
  induction done as [|l done IH]; simpl; intros offset buf; [reflexivity|].
  destruct (int_add offset (layer_size_of l) >? cap); [reflexivity|].
  destruct (memcpy buf offset (pBsBuf l) (layer_size_of l)); [apply IH|reflexivity].
Qed.

(** [offset] advances by [layer_size] per layer (line 209). *)
Lemma copy_loop_offset (cap : Z) (done : list SLayerBSInfo) : forall offset buf offset' buf',
  copy_loop offset buf cap done = CopyDone offset' buf' ->
  offset' = fold_left (fun o l => int_add o (layer_size_of l)) done offset.
Proof.
  induction done as [|l done IH]; simpl; intros offset buf offset' buf' Hrun.
  - congruence.
  - destruct (int_add offset (layer_size_of l) >? cap); [discriminate|].
    destruct (memcpy buf offset (pBsBuf l) (layer_size_of l)); [|discriminate].
    eapply IH; eassumption.
Qed.

Lemma fold_offset_exact (done : list SLayerBSInfo) : forall offset,
  lengths_nonneg done = true ->
  0 <= offset -> offset + frame_total done <= INT_MAX ->
  fold_left (fun o l => int_add o (layer_size_of l)) done offset = offset + frame_total done.
Proof.
  induction done as [|l done IH]; simpl; intros offset Hnn Hoff Hfit; [lia|].
  apply andb_true_iff in Hnn as [Hl Hr].
  pose proof (nal_total_nonneg _ Hl) as Hpos.
  pose proof (frame_total_nonneg _ Hr) as Hpos'.
  rewrite layer_size_of_exact by (try assumption; lia).
  rewrite int_add_exact by (unfold int_range, INT_MIN, INT_MAX in *; lia).
  rewrite IH; try assumption; lia.
Qed.

(** With lengths that are lengths and a total within the capacity, the loop
    never leaves through line 205 and never touches a byte at or beyond
    [out_buf_size]. *)
Lemma copy_loop_guarded (cap : Z) (layers : list SLayerBSInfo) : forall offset buf,
  lengths_nonneg layers = true ->
  0 <= offset -> offset + frame_total layers <= cap -> cap <= INT_MAX ->
  is_CopyTooSmall (copy_loop offset buf cap layers) = false
  /\ length (outcome_buf (copy_loop offset buf cap layers)) = length buf
  /\ skipn (Z.to_nat cap) (outcome_buf (copy_loop offset buf cap layers))
     = skipn (Z.to_nat cap) buf.
Proof.
  induction layers as [|l layers IH]; simpl; intros offset buf Hnn Hoff Hfit Hcap.
  - auto.
  - apply andb_true_iff in Hnn as [Hl Hr].
    pose proof (nal_total_nonneg _ Hl) as Hpos.
    pose proof (frame_total_nonneg _ Hr) as Hpos'.
    rewrite layer_size_of_exact by (try assumption; lia).
    rewrite int_add_exact by (unfold int_range, INT_MIN, INT_MAX in *; lia).
    replace (offset + nal_total (pNalLengthInByte l) >? cap) with false
      by (symmetry; rewrite Z.gtb_ltb; apply Z.ltb_ge; lia).
    destruct (memcpy buf offset (pBsBuf l) (nal_total (pNalLengthInByte l)))
      as [buf'|] eqn:Hcpy; simpl; [|auto].
    destruct (memcpy_keeps_tail _ _ _ _ _ cap Hcpy) as [Hlen Htail]; [lia|].
    destruct (IH (offset + nal_total (pNalLengthInByte l)) buf') as (H1 & H2 & H3);
      try assumption; try lia.
    rewrite H1, H2, H3. auto.
Qed.

(** With, besides, the announced bytes present in every [pBsBuf] and room for
    them in the buffer, the loop runs to its end and has laid the layers'
    bytes one after the other from [offset] on. *)
Lemma copy_loop_concat (cap : Z) (layers : list SLayerBSInfo) : forall pre post,
  lengths_nonneg layers = true ->
  bitstreams_present layers = true ->
  Z.of_nat (length pre) + frame_total layers <= cap -> cap <= INT_MAX ->
  frame_total layers <= Z.of_nat (length post) ->
  copy_loop (Z.of_nat (length pre)) (pre ++ post) cap layers
  = CopyDone (Z.of_nat (length pre) + frame_total layers)
      ((pre ++ frame_bytes layers) ++ skipn (Z.to_nat (frame_total layers)) post).
Proof.
  induction layers as [|l layers IH]; intros pre post Hnn Hpres Hfit Hcap Hroom.
  - simpl. rewrite Z.add_0_r, app_nil_r. reflexivity.
  - simpl in Hnn, Hpres, Hfit, Hroom.
    apply andb_true_iff in Hnn as [Hl Hr].
    apply andb_true_iff in Hpres as [Hpl Hpr]. apply Z.leb_le in Hpl.
    pose proof (nal_total_nonneg _ Hl) as Hpos.
    pose proof (frame_total_nonneg _ Hr) as Hpos'.
    cbn [copy_loop].
    rewrite layer_size_of_exact by (try assumption; lia).
    rewrite int_add_exact by (unfold int_range, INT_MIN, INT_MAX in *; lia).
    replace (Z.of_nat (length pre) + nal_total (pNalLengthInByte l) >? cap) with false
      by (symmetry; rewrite Z.gtb_ltb; apply Z.ltb_ge; lia).
    rewrite memcpy_at_split by lia.
    set (n := nal_total (pNalLengthInByte l)) in *.
    assert (Hlen : Z.of_nat (length (pre ++ firstn (Z.to_nat n) (pBsBuf l)))
                   = Z.of_nat (length pre) + n)
      by (rewrite length_app, length_firstn; lia).
    rewrite <- Hlen. rewrite IH; try assumption.
    + rewrite Hlen. f_equal; [simpl; fold n; lia|].
      unfold frame_bytes. simpl. fold (frame_bytes layers). unfold layer_bytes. fold n.
      rewrite skipn_skipn, <- !app_assoc. do 2 f_equal.
      simpl. fold n. rewrite (Z2Nat.inj_add n) by lia. rewrite Nat.add_comm. reflexivity.
    + lia.
    + rewrite length_skipn. lia.
Qed.

(** ** [h264_encoder_encode] past its checks *)

Section Pipeline.

Context {E : Type} `{ISVCEncoder E}.

(** The body of [h264_encoder_encode] from line 137 on, for a call whose
    pointers are all present and whose context holds an engine, in terms of
    what [EncodeFrame] answers. *)
Lemma encode_live (ctx : encoder_context_t E) (eng eng' : E)
  (y u v buf : list Byte.byte) (stride_y stride_u stride_v cap os ik r : Z)
  (info : SFrameBSInfo) :
  encoder ctx = Some eng ->
  EncodeFrame (engine_at_encode ctx eng)
    (source_picture ctx y u v stride_y stride_u stride_v) = (r, info, eng') ->
  h264_encoder_encode (Some ctx) (Some y) (Some u) (Some v) stride_y stride_u stride_v
    (Some buf) cap (Some os) (Some ik)
  = let ctx' := Some (set_encoder (ctx_at_encode ctx) (Some eng')) in
    let calls := calls_of_encode ctx (source_picture ctx y u v stride_y stride_u stride_v) in
    if negb (r =? cmResultSuccess)
    then Build_encode_result (Some H264_ERROR_ENCODE_FAILED) ctx' (Some buf)
           (Some 0) (Some 0) calls
    else if EVideoFrameType_eqb (eFrameType info) videoFrameTypeSkip
    then Build_encode_result (Some H264_SUCCESS) ctx' (Some buf) (Some 0) (Some 0) calls
    else if total_size_loop 0 (sLayerInfo info) >? cap
    then Build_encode_result (Some H264_ERROR_OUTPUT_BUFFER_TOO_SMALL) ctx' (Some buf)
           (Some 0) (Some 0) calls
    else
      let is_keyframe :=
        if EVideoFrameType_eqb (eFrameType info) videoFrameTypeIDR
           || EVideoFrameType_eqb (eFrameType info) videoFrameTypeI
        then Some 1 else Some 0 in
      match copy_loop 0 buf cap (sLayerInfo info) with
      | CopyTooSmall buf' =>
          Build_encode_result (Some H264_ERROR_OUTPUT_BUFFER_TOO_SMALL) ctx' (Some buf')
            (Some 0) is_keyframe calls
      | CopyUndefined buf' =>
          Build_encode_result None ctx' (Some buf') (Some 0) is_keyframe calls
      | CopyDone offset buf' =>
          Build_encode_result (Some H264_SUCCESS) ctx' (Some buf') (Some offset)
            is_keyframe calls
      end.
Proof.
  intros Hlive Hframe.
  unfold h264_encoder_encode. rewrite Hlive.
  unfold engine_at_encode in Hframe. unfold ctx_at_encode, calls_of_encode.
  destruct (negb (force_idr ctx =? 0)); cbv beta iota zeta;
    rewrite Hframe; reflexivity.
Qed.

Lemma EVideoFrameType_eqb_eq (a b : EVideoFrameType) :
  EVideoFrameType_eqb a b = true <-> a = b.
Proof. destruct a, b; simpl; split; congruence. Qed.

Lemma EVideoFrameType_eqb_neq (a b : EVideoFrameType) :
  a <> b -> EVideoFrameType_eqb a b = false.
Proof.
  intros Hne. destruct (EVideoFrameType_eqb a b) eqn:Heq; [|reflexivity].
  apply EVideoFrameType_eqb_eq in Heq. contradiction.
Qed.

Lemma force_idr_ctx_at_encode (ctx : encoder_context_t E) :
  force_idr (ctx_at_encode ctx) = 0.
Proof.
  unfold ctx_at_encode. destruct (force_idr ctx =? 0) eqn:Hflag; simpl; [|reflexivity].
  apply Z.eqb_eq. exact Hflag.
Qed.

(** A call on a context whose flag is clear never calls [ForceIntraFrame]. *)
Lemma encode_clear_flag_no_force (ctx : encoder_context_t E)
  (y u v : option (list Byte.byte)) (stride_y stride_u stride_v : Z)
  (out_buf : option (list Byte.byte)) (cap : Z) (out_size is_keyframe : option Z) :
  force_idr ctx = 0 ->
  existsb is_EvForceIntraFrame
    (calls (h264_encoder_encode (Some ctx) y u v stride_y stride_u stride_v
              out_buf cap out_size is_keyframe)) = false.
Proof.
  intros Hflag.
  destruct y as [y|], u as [u|], v as [v|], out_buf as [buf|],
    out_size as [os|], is_keyframe as [ik|]; try reflexivity.
  destruct (encoder ctx) as [eng|] eqn:Hlive.
  - destruct (EncodeFrame (engine_at_encode ctx eng)
                (source_picture ctx y u v stride_y stride_u stride_v))
      as [[r info] eng'] eqn:Hframe.
    rewrite (encode_live _ _ _ _ _ _ _ _ _ _ _ _ _ _ _ Hlive Hframe).
    cbv zeta. unfold calls_of_encode. rewrite Hflag. simpl.
    destruct (negb (r =? cmResultSuccess)); [reflexivity|].
    destruct (EVideoFrameType_eqb (eFrameType info) videoFrameTypeSkip); [reflexivity|].
    destruct (total_size_loop 0 (sLayerInfo info) >? cap); [reflexivity|].
    destruct (copy_loop 0 buf cap (sLayerInfo info)); reflexivity.
  - unfold h264_encoder_encode. rewrite Hlive. reflexivity.
Qed.

Lemma frame_bytes_length (layers : list SLayerBSInfo) :
  lengths_nonneg layers = true ->
  bitstreams_present layers = true ->
  Z.of_nat (length (frame_bytes layers)) = frame_total layers.
Proof.
  induction layers as [|l layers IH]; simpl; intros Hnn Hpres; [reflexivity|].
  apply andb_true_iff in Hnn as [Hl Hr].
  apply andb_true_iff in Hpres as [Hpl Hpr]. apply Z.leb_le in Hpl.
  pose proof (nal_total_nonneg _ Hl) as Hpos.
  unfold frame_bytes. simpl. fold (frame_bytes layers).
  rewrite length_app, Nat2Z.inj_add, IH by assumption.
  unfold layer_bytes. rewrite length_firstn. lia.
Qed.

End Pipeline.

(** ** The frame pipeline *)

Section FramePipeline.

Context {E : Type} `{ISVCEncoder E}.

(** C1.  On a valid handle with a live engine, when [EncodeFrame] succeeds,
    the frame is not skipped and the sum of all NAL byte lengths of all
    layers is at most the capacity of the caller's buffer,
    [h264_encoder_encode] returns [H264_SUCCESS], [*out_size] is exactly
    that sum, and the first [*out_size] bytes of the buffer are the layers'
    bytes in the order produced, with nothing between them.  (The rest of
    the buffer is as it was.)  The engine's lengths are lengths, each
    [pBsBuf] holds the bytes announced, and the buffer has the capacity the
    caller declares in the [int] [out_buf_size]. *)
Theorem encode_packs_layers_in_order (ctx : encoder_context_t E) (eng eng' : E)
  (y u v buf : list Byte.byte) (stride_y stride_u stride_v cap os ik : Z)
  (info : SFrameBSInfo) :
  encoder ctx = Some eng ->
  EncodeFrame (engine_at_encode ctx eng)
    (source_picture ctx y u v stride_y stride_u stride_v) = (cmResultSuccess, info, eng') ->
  eFrameType info <> videoFrameTypeSkip ->
  lengths_nonneg (sLayerInfo info) = true ->
  bitstreams_present (sLayerInfo info) = true ->
  frame_total (sLayerInfo info) <= cap ->
  cap <= INT_MAX ->
  cap <= Z.of_nat (length buf) ->
  let res := h264_encoder_encode (Some ctx) (Some y) (Some u) (Some v)
               stride_y stride_u stride_v (Some buf) cap (Some os) (Some ik) in
  ret res = Some H264_SUCCESS
  /\ out_size_after res = Some (frame_total (sLayerInfo info))
  /\ exists buf',
       out_buf_after res = Some buf'
       /\ length buf' = length buf
       /\ firstn (Z.to_nat (frame_total (sLayerInfo info))) buf' = frame_bytes (sLayerInfo info)
       /\ skipn (Z.to_nat (frame_total (sLayerInfo info))) buf'
          = skipn (Z.to_nat (frame_total (sLayerInfo info))) buf.
Proof.
  intros Hlive Hframe Hskip Hnn Hpres Hfit Hcap Hbuf res. subst res.
  rewrite (encode_live _ _ _ _ _ _ _ _ _ _ _ _ _ _ _ Hlive Hframe). cbv zeta.
  pose proof (frame_total_nonneg _ Hnn) as Hpos.
  pose proof (frame_bytes_length _ Hnn Hpres) as Hlen.
  replace (negb (cmResultSuccess =? cmResultSuccess)) with false by reflexivity.
  rewrite (EVideoFrameType_eqb_neq _ _ Hskip).
  rewrite total_size_loop_exact by (try assumption; lia). rewrite Z.add_0_l.
  replace (frame_total (sLayerInfo info) >? cap) with false
    by (symmetry; rewrite Z.gtb_ltb; apply Z.ltb_ge; lia).
  pose proof (copy_loop_concat cap (sLayerInfo info) [] buf Hnn Hpres) as Hcopy.
  simpl in Hcopy. rewrite Hcopy by lia. simpl.
  repeat split.
  exists (frame_bytes (sLayerInfo info)
          ++ skipn (Z.to_nat (frame_total (sLayerInfo info))) buf).
  assert (Hn : length (frame_bytes (sLayerInfo info))
               = Z.to_nat (frame_total (sLayerInfo info))) by lia.
  repeat split.
  - rewrite length_app, length_skipn. lia.
  - rewrite <- Hn, firstn_app, firstn_all, Nat.sub_diag. simpl. apply app_nil_r.
  - rewrite <- Hn, skipn_app, skipn_all, Nat.sub_diag. reflexivity.
Qed.

(** C2.  On a valid handle with a live engine, when [EncodeFrame] succeeds,
    the frame is not skipped and the total of the NAL byte lengths exceeds
    the capacity of the caller's buffer, [h264_encoder_encode] returns
    [H264_ERROR_OUTPUT_BUFFER_TOO_SMALL], the buffer is untouched and
    [*out_size] is 0.  (The total is one the [int] [total_size] can hold.) *)
Theorem encode_rejects_small_buffer (ctx : encoder_context_t E) (eng eng' : E)
  (y u v buf : list Byte.byte) (stride_y stride_u stride_v cap os ik : Z)
  (info : SFrameBSInfo) :
  encoder ctx = Some eng ->
  EncodeFrame (engine_at_encode ctx eng)
    (source_picture ctx y u v stride_y stride_u stride_v) = (cmResultSuccess, info, eng') ->
  eFrameType info <> videoFrameTypeSkip ->
  lengths_nonneg (sLayerInfo info) = true ->
  frame_total (sLayerInfo info) <= INT_MAX ->
  cap < frame_total (sLayerInfo info) ->
  let res := h264_encoder_encode (Some ctx) (Some y) (Some u) (Some v)
               stride_y stride_u stride_v (Some buf) cap (Some os) (Some ik) in
  ret res = Some H264_ERROR_OUTPUT_BUFFER_TOO_SMALL
  /\ out_buf_after res = Some buf
  /\ out_size_after res = Some 0.
Proof.
  intros Hlive Hframe Hskip Hnn Hfit Hsmall res. subst res.
  rewrite (encode_live _ _ _ _ _ _ _ _ _ _ _ _ _ _ _ Hlive Hframe). cbv zeta.
  replace (negb (cmResultSuccess =? cmResultSuccess)) with false by reflexivity.
  rewrite (EVideoFrameType_eqb_neq _ _ Hskip).
  rewrite total_size_loop_exact by (try assumption; lia). rewrite Z.add_0_l.
  replace (frame_total (sLayerInfo info) >? cap) with true
    by (symmetry; rewrite Z.gtb_ltb; apply Z.ltb_lt; lia).
  simpl. auto.
Qed.

(** C5.  On a valid handle with a live engine, when the engine reports the
    frame as skipped, [h264_encoder_encode] returns [H264_SUCCESS] with
    [*out_size = 0] and [*is_keyframe = 0], and the buffer is untouched. *)
Theorem encode_skipped_frame (ctx : encoder_context_t E) (eng eng' : E)
  (y u v buf : list Byte.byte) (stride_y stride_u stride_v cap os ik : Z)
  (info : SFrameBSInfo) :
  encoder ctx = Some eng ->
  EncodeFrame (engine_at_encode ctx eng)
    (source_picture ctx y u v stride_y stride_u stride_v) = (cmResultSuccess, info, eng') ->
  eFrameType info = videoFrameTypeSkip ->
  let res := h264_encoder_encode (Some ctx) (Some y) (Some u) (Some v)
               stride_y stride_u stride_v (Some buf) cap (Some os) (Some ik) in
  ret res = Some H264_SUCCESS
  /\ out_size_after res = Some 0
  /\ is_keyframe_after res = Some 0
  /\ out_buf_after res = Some buf.
Proof.
  intros Hlive Hframe Hskip res. subst res.
  rewrite (encode_live _ _ _ _ _ _ _ _ _ _ _ _ _ _ _ Hlive Hframe). cbv zeta.
  replace (negb (cmResultSuccess =? cmResultSuccess)) with false by reflexivity.
  rewrite Hskip. simpl. auto.
Qed.

(** C9.  In the copy loop, whenever the total of all NAL byte lengths is at
    most [out_buf_size] (so that the check of line 184 passes), the check of
    line 204 is false at every layer: [offset], the sum of the sizes of the
    layers before, plus [layer_size], the sum of the layer's NAL lengths,
    does not exceed [out_buf_size].  Hence the loop never returns through
    line 205, and no byte at or beyond [out_buf_size] is written. *)
Theorem copy_loop_check_never_fires (layers : list SLayerBSInfo)
  (buf : list Byte.byte) (cap : Z) :
  lengths_nonneg layers = true ->
  frame_total layers <= cap ->
  cap <= INT_MAX ->
  (total_size_loop 0 layers >? cap) = false
  /\ (forall done layer_info rest, layers = done ++ layer_info :: rest ->
        (int_add (offset_after done) (layer_size_of layer_info) >? cap) = false)
  /\ is_CopyTooSmall (copy_loop 0 buf cap layers) = false
  /\ length (outcome_buf (copy_loop 0 buf cap layers)) = length buf
  /\ skipn (Z.to_nat cap) (outcome_buf (copy_loop 0 buf cap layers))
     = skipn (Z.to_nat cap) buf.
Proof.
  intros Hnn Hfit Hcap.
  pose proof (frame_total_nonneg _ Hnn) as Hpos.
  split; [|split].
  - rewrite total_size_loop_exact by (try assumption; lia).
    rewrite Z.gtb_ltb. apply Z.ltb_ge. lia.
  - intros done l rest ->.
    unfold lengths_nonneg in Hnn. rewrite forallb_app in Hnn.
    apply andb_true_iff in Hnn as [Hd Hlr]. simpl in Hlr.
    apply andb_true_iff in Hlr as [Hl Hr].
    rewrite frame_total_app in Hfit, Hpos. simpl in Hfit, Hpos.
    pose proof (frame_total_nonneg done Hd) as Hpd.
    pose proof (nal_total_nonneg _ Hl) as Hpl.
    pose proof (frame_total_nonneg rest Hr) as Hpr.
    unfold offset_after. rewrite fold_offset_exact by (try assumption; lia).
    rewrite layer_size_of_exact by (try assumption; lia).
    rewrite int_add_exact by (unfold int_range, INT_MIN, INT_MAX in *; lia).
    rewrite Z.gtb_ltb. apply Z.ltb_ge. lia.
  - apply copy_loop_guarded; try assumption; lia.
Qed.

End FramePipeline.

(** ** The force-keyframe flag and the lifecycle *)

Section Lifecycle.

Context {E : Type} `{ISVCEncoder E}.

(** What a call that reaches the engine does to the context and which calls
    it makes, whatever the engine answers. *)
Lemma encode_live_effects (ctx : encoder_context_t E) (eng eng' : E)
  (y u v buf : list Byte.byte) (stride_y stride_u stride_v cap os ik r : Z)
  (info : SFrameBSInfo) :
  encoder ctx = Some eng ->
  EncodeFrame (engine_at_encode ctx eng)
    (source_picture ctx y u v stride_y stride_u stride_v) = (r, info, eng') ->
  let res := h264_encoder_encode (Some ctx) (Some y) (Some u) (Some v)
               stride_y stride_u stride_v (Some buf) cap (Some os) (Some ik) in
  calls res = calls_of_encode ctx (source_picture ctx y u v stride_y stride_u stride_v)
  /\ handle_after res = Some (set_encoder (ctx_at_encode ctx) (Some eng')).
Proof.
  intros Hlive Hframe res. subst res.
  rewrite (encode_live _ _ _ _ _ _ _ _ _ _ _ _ _ _ _ Hlive Hframe). cbv zeta.
  destruct (negb (r =? cmResultSuccess)); [split; reflexivity|].
  destruct (EVideoFrameType_eqb (eFrameType info) videoFrameTypeSkip); [split; reflexivity|].
  destruct (total_size_loop 0 (sLayerInfo info) >? cap); [split; reflexivity|].
  destruct (copy_loop 0 buf cap (sLayerInfo info)); split; reflexivity.
Qed.

(** C3.  If any of [width], [height], [fps], [bitrate], [keyint] is <= 0,
    [h264_encoder_create] returns [NULL] and has made no call at all: no
    [calloc], no [WelsCreateSVCEncoder], whatever [threads] is. *)
Theorem create_rejects_nonpositive (env : Environment E)
  (width height fps bitrate keyint threads : Z) :
  width <= 0 \/ height <= 0 \/ fps <= 0 \/ bitrate <= 0 \/ keyint <= 0 ->
  h264_encoder_create env width height fps bitrate keyint threads = (None, []).
Proof.
  intros Hbad. unfold h264_encoder_create.
  replace ((width <=? 0) || (height <=? 0) || (fps <=? 0) || (bitrate <=? 0)
           || (keyint <=? 0)) with true; [reflexivity|].
  symmetry. rewrite !orb_true_iff, !Z.leb_le. tauto.
Qed.

(** C4.  The force-keyframe flag is one-shot.  On a handle whose flag is set
    and whose engine is live, the next [h264_encoder_encode] that reaches
    the engine calls [ForceIntraFrame (true)] and then [EncodeFrame], and
    leaves the flag cleared; an [h264_encoder_encode] on the handle as it is
    then, with no request in between, makes no [ForceIntraFrame] call. *)
Theorem force_keyframe_is_one_shot (ctx : encoder_context_t E) (eng : E)
  (y u v buf : list Byte.byte) (stride_y stride_u stride_v cap os ik : Z) :
  encoder ctx = Some eng ->
  force_idr ctx <> 0 ->
  let pic := source_picture ctx y u v stride_y stride_u stride_v in
  let res := h264_encoder_encode (Some ctx) (Some y) (Some u) (Some v)
               stride_y stride_u stride_v (Some buf) cap (Some os) (Some ik) in
  calls res = [EvForceIntraFrame true; EvEncodeFrame pic]
  /\ exists ctx1,
       handle_after res = Some ctx1
       /\ force_idr ctx1 = 0
       /\ encoder ctx1 = Some (snd (EncodeFrame (ForceIntraFrame eng true) pic))
       /\ forall y2 u2 v2 stride_y2 stride_u2 stride_v2 out_buf2 cap2 out_size2 is_keyframe2,
            existsb is_EvForceIntraFrame
              (calls (h264_encoder_encode (Some ctx1) y2 u2 v2
                        stride_y2 stride_u2 stride_v2 out_buf2 cap2 out_size2 is_keyframe2))
            = false.
Proof.
  intros Hlive Hset pic res.
  assert (Hflag : negb (force_idr ctx =? 0) = true)
    by (apply negb_true_iff, Z.eqb_neq; exact Hset).
  destruct (EncodeFrame (engine_at_encode ctx eng) pic) as [[r info] eng'] eqn:Hframe.
  destruct (encode_live_effects ctx eng eng' y u v buf stride_y stride_u stride_v
              cap os ik r info Hlive Hframe) as [Hcalls Hhandle].
  fold res in Hcalls, Hhandle.
  unfold engine_at_encode in Hframe. rewrite Hflag in Hframe.
  split.
  - rewrite Hcalls. unfold calls_of_encode. rewrite Hflag. reflexivity.
  - exists (set_encoder (ctx_at_encode ctx) (Some eng')).
    split; [exact Hhandle|]. split; [apply force_idr_ctx_at_encode|].
    split; [simpl; fold pic; rewrite Hframe; reflexivity|].
    intros. apply encode_clear_flag_no_force. apply force_idr_ctx_at_encode.
Qed.

(** C6, as the code has it.  [h264_encoder_force_idr] returns
    [H264_ERROR_INVALID_PARAM] when the handle is absent, and
    [H264_ERROR_NULL_ENCODER] when the handle is present but its engine
    reference is absent, leaving the context as it is; in every other case
    it sets [force_idr] to 1, changes nothing else, and returns
    [H264_SUCCESS]. *)
Theorem force_idr_outcomes (ctx : encoder_context_t E) :
  h264_encoder_force_idr (@None (encoder_context_t E)) = (H264_ERROR_INVALID_PARAM, None)
  /\ (encoder ctx = None ->
      h264_encoder_force_idr (Some ctx) = (H264_ERROR_NULL_ENCODER, Some ctx))
  /\ (encoder ctx <> None ->
      fst (h264_encoder_force_idr (Some ctx)) = H264_SUCCESS
      /\ exists ctx',
           snd (h264_encoder_force_idr (Some ctx)) = Some ctx'
           /\ force_idr ctx' = 1
           /\ encoder ctx' = encoder ctx
           /\ (width ctx', height ctx', fps ctx', bitrate ctx', keyint ctx')
              = (width ctx, height ctx, fps ctx, bitrate ctx, keyint ctx)).
Proof.
  split; [reflexivity|]. unfold h264_encoder_force_idr.
  split; intros Heng.
  - rewrite Heng. reflexivity.
  - destruct (encoder ctx) as [eng|] eqn:Hlive; [|contradiction].
    split; [reflexivity|].
    exists (set_force_idr ctx 1). simpl. rewrite Hlive. auto.
Qed.

(** C7, as the code has it.  The parameters [h264_encoder_create] hands to
    [InitializeExt] carry [iMultipleThreadIdc = threads] for every positive
    [threads] that the [unsigned short] field can hold, that is up to
    65535, and [iMultipleThreadIdc = 1] for every [threads] <= 0, 0
    included. *)
Theorem create_thread_hint (env : Environment E)
  (width height fps bitrate keyint threads : Z) (param : SEncParamExt) :
  In (EvInitializeExt param)
     (snd (h264_encoder_create env width height fps bitrate keyint threads)) ->
  (0 < threads -> threads <= 65535 -> iMultipleThreadIdc param = threads)
  /\ (threads <= 0 -> iMultipleThreadIdc param = 1).
Proof.
  unfold h264_encoder_create. intros Hin.
  assert (Hderived : exists defaults,
             param = derive_params defaults width height fps bitrate keyint threads).
  { destruct ((width <=? 0) || (height <=? 0) || (fps <=? 0) || (bitrate <=? 0)
              || (keyint <=? 0)); [contradiction|].
    destruct (negb (calloc_succeeds env));
      [simpl in Hin; intuition discriminate|].
    destruct (WelsCreateSVCEncoder env) as [r created].
    destruct (if negb (r =? 0) then None else created) as [eng|];
      [|simpl in Hin; intuition discriminate].
    exists (GetDefaultParams eng).
    destruct (InitializeExt eng _) as [r' eng2].
    destruct (negb (r' =? cmResultSuccess)); simpl in Hin;
      repeat (destruct Hin as [Hin|Hin]; [try discriminate; congruence|]);
      contradiction. }
  destruct Hderived as [defaults ->].
  unfold derive_params. cbn [iMultipleThreadIdc]. unfold to_ushort.
  split.
  - intros Ht Hfit.
    replace (threads >? 0) with true
      by (symmetry; rewrite Z.gtb_ltb; apply Z.ltb_lt; exact Ht).
    apply Z.mod_small. lia.
  - intros Ht.
    replace (threads >? 0) with false
      by (symmetry; rewrite Z.gtb_ltb; apply Z.ltb_ge; exact Ht).
    reflexivity.
Qed.



(** C10.  [h264_encoder_encode] consumes the flag unconditionally: after
    every call that passes the pointer checks and the engine check the
    handle's [force_idr] is 0, whatever the engine answers - failure and
    skipped frame included - and the next call on that handle makes no
    [ForceIntraFrame] call. *)
Theorem encode_consumes_flag (ctx : encoder_context_t E) (eng : E)
  (y u v buf : list Byte.byte) (stride_y stride_u stride_v cap os ik : Z) :
  encoder ctx = Some eng ->
  let res := h264_encoder_encode (Some ctx) (Some y) (Some u) (Some v)
               stride_y stride_u stride_v (Some buf) cap (Some os) (Some ik) in
  exists ctx1,
    handle_after res = Some ctx1
    /\ force_idr ctx1 = 0
    /\ forall y2 u2 v2 stride_y2 stride_u2 stride_v2 out_buf2 cap2 out_size2 is_keyframe2,
         existsb is_EvForceIntraFrame
           (calls (h264_encoder_encode (Some ctx1) y2 u2 v2
                     stride_y2 stride_u2 stride_v2 out_buf2 cap2 out_size2 is_keyframe2))
         = false.
Proof.
  intros Hlive res.
  destruct (EncodeFrame (engine_at_encode ctx eng)
              (source_picture ctx y u v stride_y stride_u stride_v))
    as [[r info] eng'] eqn:Hframe.
  destruct (encode_live_effects ctx eng eng' y u v buf stride_y stride_u stride_v
              cap os ik r info Hlive Hframe) as [_ Hhandle].
  exists (set_encoder (ctx_at_encode ctx) (Some eng')).
  split; [exact Hhandle|]. split; [apply force_idr_ctx_at_encode|].
  intros. apply encode_clear_flag_no_force. apply force_idr_ctx_at_encode.
Qed.

End Lifecycle.

(** The loop's [offset] after the layers [done] is [offset_after done]. *)
Lemma offset_after_is_loop_offset (cap : Z) (done : list SLayerBSInfo)
  (buf buf' : list Byte.byte) (offset' : Z) :
  copy_loop 0 buf cap done = CopyDone offset' buf' -> offset' = offset_after done.
Proof. apply copy_loop_offset. Qed.

(** ** Concrete runs on the scripted engine *)

(** A negative entry in [pNalLengthInByte] is not a length.  For such an
    answer of the engine the total can pass line 184 while a layer does not
    fit, and the check of line 204 is what stops the loop. *)
Remark copy_loop_check_guards_negative_lengths :
  let layers := [ {| pNalLengthInByte := [6]; pBsBuf := repeat Byte.x01 6 |};
                  {| pNalLengthInByte := [-3]; pBsBuf := [] |} ] in
  (total_size_loop 0 layers >? 4) = false
  /\ copy_loop 0 buffer8 4 layers = CopyTooSmall buffer8.
Proof. split; reflexivity. Qed.

Lemma encode_packs_layers_in_order_witness :
  let res := h264_encoder_encode (Some (scripted_ctx [(0, frame_idr)] 1))
               (Some plane) (Some plane) (Some plane) 2 1 1
               (Some buffer8) 8 (Some 77) (Some 55) in
  ret res = Some H264_SUCCESS
  /\ out_size_after res = Some (frame_total (sLayerInfo frame_idr))
  /\ exists buf',
       out_buf_after res = Some buf'
       /\ length buf' = length buffer8
       /\ firstn (Z.to_nat (frame_total (sLayerInfo frame_idr))) buf'
          = frame_bytes (sLayerInfo frame_idr)
       /\ skipn (Z.to_nat (frame_total (sLayerInfo frame_idr))) buf'
          = skipn (Z.to_nat (frame_total (sLayerInfo frame_idr))) buffer8.
Proof.
  apply (encode_packs_layers_in_order (scripted_ctx [(0, frame_idr)] 1)
           [(0, frame_idr)] [] plane plane plane buffer8 2 1 1 8 77 55 frame_idr).
  - reflexivity.
  - reflexivity.
  - discriminate.
  - reflexivity.
  - reflexivity.
  - vm_compute. discriminate.
  - vm_compute. discriminate.
  - vm_compute. discriminate.
Defined.

Lemma encode_rejects_small_buffer_witness :
  let res := h264_encoder_encode (Some (scripted_ctx [(0, frame_idr)] 0))
               (Some plane) (Some plane) (Some plane) 2 1 1
               (Some buffer8) 5 (Some 77) (Some 55) in
  ret res = Some H264_ERROR_OUTPUT_BUFFER_TOO_SMALL
  /\ out_buf_after res = Some buffer8
  /\ out_size_after res = Some 0.
Proof.
  apply (encode_rejects_small_buffer (scripted_ctx [(0, frame_idr)] 0)
           [(0, frame_idr)] [] plane plane plane buffer8 2 1 1 5 77 55 frame_idr).
  - reflexivity.
  - reflexivity.
  - discriminate.
  - reflexivity.
  - vm_compute. discriminate.
  - reflexivity.
Defined.

Lemma create_rejects_nonpositive_witness :
  h264_encoder_create (scripted_env [(0, frame_idr)]) 640 0 30 500000 60 4 = (None, []).
Proof.
  apply (create_rejects_nonpositive (scripted_env [(0, frame_idr)]) 640 0 30 500000 60 4).
  right. left. lia.
Defined.

Lemma force_keyframe_is_one_shot_witness :
  let ctx := scripted_ctx [(0, frame_idr); (0, frame_p)] 1 in
  let pic := source_picture ctx plane plane plane 2 1 1 in
  let res := h264_encoder_encode (Some ctx) (Some plane) (Some plane) (Some plane) 2 1 1
               (Some buffer8) 8 (Some 77) (Some 55) in
  calls res = [EvForceIntraFrame true; EvEncodeFrame pic]
  /\ exists ctx1,
       handle_after res = Some ctx1
       /\ force_idr ctx1 = 0
       /\ encoder ctx1
          = Some (snd (EncodeFrame (ForceIntraFrame [(0, frame_idr); (0, frame_p)] true) pic))
       /\ forall y2 u2 v2 stride_y2 stride_u2 stride_v2 out_buf2 cap2 out_size2 is_keyframe2,
            existsb is_EvForceIntraFrame
              (calls (h264_encoder_encode (Some ctx1) y2 u2 v2
                        stride_y2 stride_u2 stride_v2 out_buf2 cap2 out_size2 is_keyframe2))
            = false.
Proof.
  apply (force_keyframe_is_one_shot (scripted_ctx [(0, frame_idr); (0, frame_p)] 1)
           [(0, frame_idr); (0, frame_p)] plane plane plane buffer8 2 1 1 8 77 55).
  - reflexivity.
  - discriminate.
Defined.

Lemma encode_skipped_frame_witness :
  let res := h264_encoder_encode (Some (scripted_ctx [(0, frame_skip)] 1))
               (Some plane) (Some plane) (Some plane) 2 1 1
               (Some buffer8) 8 (Some 77) (Some 55) in
  ret res = Some H264_SUCCESS
  /\ out_size_after res = Some 0
  /\ is_keyframe_after res = Some 0
  /\ out_buf_after res = Some buffer8.
Proof.
  apply (encode_skipped_frame (scripted_ctx [(0, frame_skip)] 1)
           [(0, frame_skip)] [] plane plane plane buffer8 2 1 1 8 77 55 frame_skip).
  - reflexivity.
  - reflexivity.
  - reflexivity.
Defined.

(** C6 as the specification words it fails on an absent handle: the code
    answers [H264_ERROR_INVALID_PARAM] (line 218), not
    [H264_ERROR_NULL_ENCODER]. *)
Lemma force_idr_absent_handle_counterexample :
  fst (h264_encoder_force_idr (@None (encoder_context_t ScriptedEngine)))
  = H264_ERROR_INVALID_PARAM
  /\ fst (h264_encoder_force_idr (@None (encoder_context_t ScriptedEngine)))
     <> H264_ERROR_NULL_ENCODER.
Proof. split; [reflexivity|discriminate]. Qed.

Lemma force_idr_outcomes_witness :
  h264_encoder_force_idr (Some (Build_encoder_context_t (@None ScriptedEngine) 2 2 30 500000 60 0))
  = (H264_ERROR_NULL_ENCODER,
     Some (Build_encoder_context_t (@None ScriptedEngine) 2 2 30 500000 60 0))
  /\ fst (h264_encoder_force_idr (Some (scripted_ctx [(0, frame_idr)] 0))) = H264_SUCCESS.
Proof.
  split.
  - apply (force_idr_outcomes
             (Build_encoder_context_t (@None ScriptedEngine) 2 2 30 500000 60 0)).
    reflexivity.
  - apply (force_idr_outcomes (scripted_ctx [(0, frame_idr)] 0)).
    discriminate.
Defined.

Lemma create_thread_hint_witness :
  iMultipleThreadIdc (derive_params scripted_defaults 640 360 30 500000 60 0) = 1
  /\ iMultipleThreadIdc (derive_params scripted_defaults 640 360 30 500000 60 4) = 4.
Proof.
  split.
  - apply (create_thread_hint (scripted_env []) 640 360 30 500000 60 0
             (derive_params scripted_defaults 640 360 30 500000 60 0)).
    + right. right. right. left. reflexivity.
    + lia.
  - apply (create_thread_hint (scripted_env []) 640 360 30 500000 60 4
             (derive_params scripted_defaults 640 360 30 500000 60 4)).
    + right. right. right. left. reflexivity.
    + lia.
    + lia.
Defined.

(** C7 as the specification words it fails for a positive [threads] beyond
    the [unsigned short] field: for [threads = 65536] the configuration
    given to [InitializeExt] carries [iMultipleThreadIdc = 0] (line 101). *)
Lemma create_thread_hint_counterexample :
  let param := derive_params scripted_defaults 640 360 30 500000 60 65536 in
  In (EvInitializeExt param)
     (snd (h264_encoder_create (scripted_env []) 640 360 30 500000 60 65536))
  /\ 0 < 65536
  /\ iMultipleThreadIdc param = 0
  /\ iMultipleThreadIdc param <> 65536.
Proof.
  cbv zeta. split; [right; right; right; left; reflexivity|].
  split; [lia|]. split; [reflexivity|discriminate].
Qed.


Lemma copy_loop_check_never_fires_witness :
  let layers := sLayerInfo frame_idr in
  (total_size_loop 0 layers >? 6) = false
  /\ (forall done layer_info rest, layers = done ++ layer_info :: rest ->
        (int_add (offset_after done) (layer_size_of layer_info) >? 6) = false)
  /\ is_CopyTooSmall (copy_loop 0 buffer8 6 layers) = false
  /\ length (outcome_buf (copy_loop 0 buffer8 6 layers)) = length buffer8
  /\ skipn (Z.to_nat 6) (outcome_buf (copy_loop 0 buffer8 6 layers))
     = skipn (Z.to_nat 6) buffer8.
Proof.
  apply (copy_loop_check_never_fires (sLayerInfo frame_idr) buffer8 6).
  - reflexivity.
  - vm_compute. discriminate.
  - vm_compute. discriminate.
Defined.

Lemma encode_consumes_flag_witness :
  let res := h264_encoder_encode (Some (scripted_ctx [(4, frame_skip); (0, frame_p)] 1))
               (Some plane) (Some plane) (Some plane) 2 1 1
               (Some buffer8) 8 (Some 77) (Some 55) in
  exists ctx1,
    handle_after res = Some ctx1
    /\ force_idr ctx1 = 0
    /\ forall y2 u2 v2 stride_y2 stride_u2 stride_v2 out_buf2 cap2 out_size2 is_keyframe2,
         existsb is_EvForceIntraFrame
           (calls (h264_encoder_encode (Some ctx1) y2 u2 v2
                     stride_y2 stride_u2 stride_v2 out_buf2 cap2 out_size2 is_keyframe2))
         = false.
Proof.
  apply (encode_consumes_flag (scripted_ctx [(4, frame_skip); (0, frame_p)] 1)
           [(4, frame_skip); (0, frame_p)] plane plane plane buffer8 2 1 1 8 77 55).
  reflexivity.
Defined.

(** The runs C10 names: a pending request meets an engine failure, and one
    meets a skipped frame.  Either way the flag is gone afterwards. *)
Example flag_consumed_by_failed_encode :
  let res := h264_encoder_encode (Some (scripted_ctx [(4, frame_skip)] 1))
               (Some plane) (Some plane) (Some plane) 2 1 1
               (Some buffer8) 8 (Some 77) (Some 55) in
  ret res = Some H264_ERROR_ENCODE_FAILED
  /\ option_map force_idr (handle_after res) = Some 0.
Proof. split; reflexivity. Qed.

Example flag_consumed_by_skipped_frame :
  let res := h264_encoder_encode (Some (scripted_ctx [(0, frame_skip)] 1))
               (Some plane) (Some plane) (Some plane) 2 1 1
               (Some buffer8) 8 (Some 77) (Some 55) in
  ret res = Some H264_SUCCESS
  /\ option_map force_idr (handle_after res) = Some 0.
Proof. split; reflexivity. Qed.

(** * Further properties of the shim *)

(** ** Wrap-around sums *)

Lemma wrap_int_range (z : Z) : int_range (wrap_int z).
Proof.
  unfold int_range, INT_MIN, INT_MAX, wrap_int.
  pose proof (Z.mod_pos_bound (z + 2147483648) 4294967296). lia.
Qed.

Lemma wrap_int_add_l (a b : Z) : wrap_int (wrap_int a + b) = wrap_int (a + b).
Proof.
  unfold wrap_int. f_equal.
  replace ((a + 2147483648) mod 4294967296 - 2147483648 + b + 2147483648)
    with ((a + 2147483648) mod 4294967296 + b) by lia.
  rewrite Zplus_mod_idemp_l. f_equal. lia.
Qed.

Lemma wrap_int_add_r (a b : Z) : wrap_int (a + wrap_int b) = wrap_int (a + b).
Proof. rewrite Z.add_comm, wrap_int_add_l. f_equal. lia. Qed.

(** Whatever the lengths are, the inner loop holds the wrapped sum. *)
Lemma sum_nal_lengths_wrap (lens : list Z) : forall acc,
  int_range acc -> sum_nal_lengths acc lens = wrap_int (acc + nal_total lens).
Proof.
  induction lens as [|n lens IH]; simpl; intros acc Hacc.
  - rewrite Z.add_0_r. symmetry. apply wrap_int_id. exact Hacc.
  - rewrite IH by apply wrap_int_range.
    unfold int_add. rewrite wrap_int_add_l. f_equal. lia.
Qed.

Lemma total_size_loop_wrap (layers : list SLayerBSInfo) : forall total_size,
  int_range total_size ->
  total_size_loop total_size layers = wrap_int (total_size + frame_total layers).
Proof.
  induction layers as [|l layers IH]; simpl; intros total_size Hacc.
  - rewrite Z.add_0_r. symmetry. apply wrap_int_id. exact Hacc.
  - rewrite sum_nal_lengths_wrap by exact Hacc.
    rewrite IH by apply wrap_int_range.
    rewrite wrap_int_add_l. f_equal. lia.
Qed.

Lemma fold_offset_wrap (done : list SLayerBSInfo) : forall offset,
  int_range offset ->
  fold_left (fun o l => int_add o (layer_size_of l)) done offset
  = wrap_int (offset + frame_total done).
Proof.
  induction done as [|l done IH]; simpl; intros offset Hoff.
  - rewrite Z.add_0_r. symmetry. apply wrap_int_id. exact Hoff.
  - rewrite IH by apply wrap_int_range.
    unfold int_add, layer_size_of.
    rewrite sum_nal_lengths_wrap by (unfold int_range, INT_MIN, INT_MAX; lia).
    rewrite Z.add_0_l, wrap_int_add_r, wrap_int_add_l. f_equal. lia.
Qed.

Lemma int_range_0 : int_range 0.
Proof. unfold int_range, INT_MIN, INT_MAX. lia. Qed.

(** The two passes agree: when the copy loop runs to its end, its [offset]
    is the [total_size] of lines 177-182. *)
Lemma copy_loop_done_offset_is_total (cap : Z) (layers : list SLayerBSInfo)
  (buf buf' : list Byte.byte) (offset' : Z) :
  copy_loop 0 buf cap layers = CopyDone offset' buf' ->
  offset' = total_size_loop 0 layers.
Proof.
  intros Hrun. rewrite (copy_loop_offset _ _ _ _ _ _ Hrun).
  rewrite fold_offset_wrap, total_size_loop_wrap by apply int_range_0.
  reflexivity.
Qed.

(** ** The copy loop on arbitrary engine output *)

Lemma memcpy_some_bounds (dst src dst' : list Byte.byte) (offset n : Z) :
  memcpy dst offset src n = Some dst' ->
  0 <= offset /\ 0 <= n /\ offset + n <= Z.of_nat (length dst)
  /\ length dst' = length dst.
Proof.
  intros Hcpy.
  destruct (memcpy_keeps_tail _ _ _ _ _ (offset + n) Hcpy) as [Hlen _]; [lia|].
  unfold memcpy in Hcpy.
  destruct ((0 <=? offset) && (0 <=? n) && (n <=? Z.of_nat (length src))
            && (offset + n <=? Z.of_nat (length dst))) eqn:Hok; [|discriminate].
  rewrite !andb_true_iff, !Z.leb_le in Hok. intuition lia.
Qed.

(** Whatever the engine reports - lengths of any sign, totals of any size -
    the check of line 204 keeps every [memcpy] below [out_buf_size], as long
    as offsets into the buffer fit an [int]. *)
Lemma copy_loop_keeps_tail (cap : Z) (layers : list SLayerBSInfo) : forall offset buf,
  Z.of_nat (length buf) <= INT_MAX ->
  length (outcome_buf (copy_loop offset buf cap layers)) = length buf
  /\ skipn (Z.to_nat cap) (outcome_buf (copy_loop offset buf cap layers))
     = skipn (Z.to_nat cap) buf.
Proof.
  induction layers as [|l layers IH]; simpl; intros offset buf Hlen; [auto|].
  destruct (int_add offset (layer_size_of l) >? cap) eqn:Hchk; [auto|].
  destruct (memcpy buf offset (pBsBuf l) (layer_size_of l)) as [buf'|] eqn:Hcpy; [|auto].
  destruct (memcpy_some_bounds _ _ _ _ _ Hcpy) as (Ho & Hn & Hfit & Hlen').
  rewrite int_add_exact in Hchk by (unfold int_range, INT_MIN, INT_MAX in *; lia).
  rewrite Z.gtb_ltb in Hchk. apply Z.ltb_ge in Hchk.
  destruct (memcpy_keeps_tail _ _ _ _ _ cap Hcpy) as [_ Htail]; [lia|].
  destruct (IH (int_add offset (layer_size_of l)) buf') as [H1 H2]; [lia|].
  rewrite H1, H2. auto.
Qed.

(** When the loop runs to its end, the final [offset] lies inside the
    buffer and within the declared capacity. *)
Lemma copy_loop_done_bounds (cap : Z) (layers : list SLayerBSInfo) :
  forall offset buf offset' buf',
  Z.of_nat (length buf) <= INT_MAX ->
  0 <= offset <= Z.of_nat (length buf) ->
  copy_loop offset buf cap layers = CopyDone offset' buf' ->
  0 <= offset' <= Z.of_nat (length buf).
Proof.
  induction layers as [|l layers IH]; simpl; intros offset buf offset' buf' Hlen Hoff Hrun.
  - injection Hrun as <- <-. exact Hoff.
  - destruct (int_add offset (layer_size_of l) >? cap) eqn:Hchk; [discriminate|].
    destruct (memcpy buf offset (pBsBuf l) (layer_size_of l)) as [buf1|] eqn:Hcpy;
      [|discriminate].
    destruct (memcpy_some_bounds _ _ _ _ _ Hcpy) as (Ho & Hn & Hfit & Hlen').
    rewrite int_add_exact in Hrun by (unfold int_range, INT_MIN, INT_MAX in *; lia).
    rewrite <- Hlen'. eapply IH; [| |exact Hrun]; lia.
Qed.

(** ** [h264_encoder_encode]: checks, errors and outputs *)

(** Splits a call that reached the engine into the six ways it can end:
    engine failure, skipped frame, total too large, and the three ends of
    the copy loop. *)
Ltac encode_live_cases Hlive Hframe :=
  rewrite (encode_live _ _ _ _ _ _ _ _ _ _ _ _ _ _ _ Hlive Hframe); cbv zeta;
  destruct (negb (_ =? cmResultSuccess)) eqn:Hfail;
  [|destruct (EVideoFrameType_eqb _ videoFrameTypeSkip) eqn:Hskipped;
    [|destruct (total_size_loop 0 _ >? _) eqn:Hlarge;
      [|destruct (copy_loop 0 _ _ _) eqn:Hcopy]]].

Section EncodeContract.

Context {E : Type} `{ISVCEncoder E}.

(** Lines 128-130.  If the handle or any of the six pointers is [NULL], the
    call returns [H264_ERROR_INVALID_PARAM] and has done nothing: the
    context, the buffer and both output integers are as they were, and the
    engine was not called. *)
Theorem encode_rejects_null_pointer (h : h264_encoder_t E)
  (y u v : option (list Byte.byte)) (stride_y stride_u stride_v : Z)
  (out_buf : option (list Byte.byte)) (cap : Z) (out_size is_keyframe : option Z) :
  h = None \/ y = None \/ u = None \/ v = None
  \/ out_buf = None \/ out_size = None \/ is_keyframe = None ->
  h264_encoder_encode h y u v stride_y stride_u stride_v out_buf cap out_size is_keyframe
  = Build_encode_result (Some H264_ERROR_INVALID_PARAM) h out_buf out_size is_keyframe [].
Proof.
  intros Hnull.
  destruct h, y, u, v, out_buf, out_size, is_keyframe; try reflexivity.
  exfalso. intuition discriminate.
Qed.

Lemma encode_no_engine (ctx : encoder_context_t E)
  (y u v buf : list Byte.byte) (stride_y stride_u stride_v cap os ik : Z) :
  encoder ctx = None ->
  h264_encoder_encode (Some ctx) (Some y) (Some u) (Some v) stride_y stride_u stride_v
    (Some buf) cap (Some os) (Some ik)
  = Build_encode_result (Some H264_ERROR_NULL_ENCODER) (Some ctx) (Some buf)
      (Some os) (Some ik) [].
Proof.
  intros Hnone. unfold h264_encoder_encode. rewrite Hnone. reflexivity.
Qed.

(** Lines 132-135.  On a context without engine the call returns
    [H264_ERROR_NULL_ENCODER] before lines 138-139: [*out_size] and
    [*is_keyframe] keep the values the caller left in them. *)
Theorem encode_without_engine (ctx : encoder_context_t E)
  (y u v buf : list Byte.byte) (stride_y stride_u stride_v cap os ik : Z) :
  encoder ctx = None ->
  let res := h264_encoder_encode (Some ctx) (Some y) (Some u) (Some v)
               stride_y stride_u stride_v (Some buf) cap (Some os) (Some ik) in
  ret res = Some H264_ERROR_NULL_ENCODER
  /\ out_size_after res = Some os
  /\ is_keyframe_after res = Some ik
  /\ out_buf_after res = Some buf
  /\ handle_after res = Some ctx
  /\ calls res = [].
Proof.
  intros Hnone res. subst res.
  rewrite encode_no_engine by exact Hnone.
  cbn [ret out_size_after is_keyframe_after out_buf_after handle_after calls].
  repeat split.
Qed.

(** Lines 165-168.  When [EncodeFrame] does not return [cmResultSuccess],
    the call returns [H264_ERROR_ENCODE_FAILED] with [*out_size = 0],
    [*is_keyframe = 0] and the buffer untouched, whatever the caller had in
    the two integers and whatever the engine left in [info]. *)
Theorem encode_engine_failure (ctx : encoder_context_t E) (eng eng' : E)
  (y u v buf : list Byte.byte) (stride_y stride_u stride_v cap os ik r : Z)
  (info : SFrameBSInfo) :
  encoder ctx = Some eng ->
  EncodeFrame (engine_at_encode ctx eng)
    (source_picture ctx y u v stride_y stride_u stride_v) = (r, info, eng') ->
  r <> cmResultSuccess ->
  let res := h264_encoder_encode (Some ctx) (Some y) (Some u) (Some v)
               stride_y stride_u stride_v (Some buf) cap (Some os) (Some ik) in
  ret res = Some H264_ERROR_ENCODE_FAILED
  /\ out_size_after res = Some 0
  /\ is_keyframe_after res = Some 0
  /\ out_buf_after res = Some buf.
Proof.
  intros Hlive Hframe Hr res. subst res.
  rewrite (encode_live _ _ _ _ _ _ _ _ _ _ _ _ _ _ _ Hlive Hframe). cbv zeta.
  replace (negb (r =? cmResultSuccess)) with true
    by (symmetry; apply negb_true_iff, Z.eqb_neq; exact Hr).
  simpl. auto.
Qed.

(** Lines 188-191.  On every successful return [*is_keyframe] is 1 exactly
    when the engine reported frame type IDR or I, and 0 otherwise. *)
Theorem encode_keyframe_classification (ctx : encoder_context_t E) (eng eng' : E)
  (y u v buf : list Byte.byte) (stride_y stride_u stride_v cap os ik r : Z)
  (info : SFrameBSInfo) :
  encoder ctx = Some eng ->
  EncodeFrame (engine_at_encode ctx eng)
    (source_picture ctx y u v stride_y stride_u stride_v) = (r, info, eng') ->
  let res := h264_encoder_encode (Some ctx) (Some y) (Some u) (Some v)
               stride_y stride_u stride_v (Some buf) cap (Some os) (Some ik) in
  ret res = Some H264_SUCCESS ->
  (eFrameType info = videoFrameTypeIDR \/ eFrameType info = videoFrameTypeI ->
   is_keyframe_after res = Some 1)
  /\ (eFrameType info <> videoFrameTypeIDR -> eFrameType info <> videoFrameTypeI ->
      is_keyframe_after res = Some 0).
Proof.
  intros Hlive Hframe res. subst res.
  encode_live_cases Hlive Hframe; simpl; try discriminate; intros _.
  - apply EVideoFrameType_eqb_eq in Hskipped. rewrite Hskipped.
    split; [intros [Ht|Ht]; discriminate|reflexivity].
  - split.
    + intros [Ht|Ht]; rewrite Ht; reflexivity.
    + intros H1 H2.
      rewrite (EVideoFrameType_eqb_neq _ _ H1), (EVideoFrameType_eqb_neq _ _ H2).
      reflexivity.
Qed.

(** Lines 138 and 212.  [*out_size] is written with the byte count only at
    the successful end of the copy loop: after every return with an error
    code it is 0, also after the return from inside the copy loop. *)
Theorem encode_error_reports_zero_bytes (ctx : encoder_context_t E) (eng : E)
  (y u v buf : list Byte.byte) (stride_y stride_u stride_v cap os ik code : Z) :
  encoder ctx = Some eng ->
  let res := h264_encoder_encode (Some ctx) (Some y) (Some u) (Some v)
               stride_y stride_u stride_v (Some buf) cap (Some os) (Some ik) in
  ret res = Some code ->
  code <> H264_SUCCESS ->
  out_size_after res = Some 0.
Proof.
  intros Hlive res. subst res.
  destruct (EncodeFrame (engine_at_encode ctx eng)
              (source_picture ctx y u v stride_y stride_u stride_v))
    as [[r info] eng'] eqn:Hframe.
  encode_live_cases Hlive Hframe; simpl; intros Hret Hcode; try reflexivity.
  injection Hret as <-. contradiction.
Qed.

(** The return code as a function of what the engine answers, for an answer
    whose lengths are lengths, whose [pBsBuf]s hold the bytes announced and
    whose total an [int] can hold, and a buffer of the declared capacity:
    the call is always defined, and it is [H264_ERROR_ENCODE_FAILED] on an
    engine failure, else [H264_SUCCESS] on a skipped frame, else
    [H264_ERROR_OUTPUT_BUFFER_TOO_SMALL] if the total exceeds the capacity,
    else [H264_SUCCESS]. *)
Theorem encode_return_code (ctx : encoder_context_t E) (eng eng' : E)
  (y u v buf : list Byte.byte) (stride_y stride_u stride_v cap os ik r : Z)
  (info : SFrameBSInfo) :
  encoder ctx = Some eng ->
  EncodeFrame (engine_at_encode ctx eng)
    (source_picture ctx y u v stride_y stride_u stride_v) = (r, info, eng') ->
  lengths_nonneg (sLayerInfo info) = true ->
  bitstreams_present (sLayerInfo info) = true ->
  frame_total (sLayerInfo info) <= INT_MAX ->
  cap <= INT_MAX ->
  cap <= Z.of_nat (length buf) ->
  ret (h264_encoder_encode (Some ctx) (Some y) (Some u) (Some v)
         stride_y stride_u stride_v (Some buf) cap (Some os) (Some ik))
  = Some (if negb (r =? cmResultSuccess) then H264_ERROR_ENCODE_FAILED
          else if EVideoFrameType_eqb (eFrameType info) videoFrameTypeSkip
          then H264_SUCCESS
          else if cap <? frame_total (sLayerInfo info)
          then H264_ERROR_OUTPUT_BUFFER_TOO_SMALL
          else H264_SUCCESS).
Proof.
  intros Hlive Hframe Hnn Hpres Hfit Hcap Hbuf.
  pose proof (frame_total_nonneg _ Hnn) as Hpos.
  rewrite (encode_live _ _ _ _ _ _ _ _ _ _ _ _ _ _ _ Hlive Hframe). cbv zeta.
  destruct (negb (r =? cmResultSuccess)); [reflexivity|].
  destruct (EVideoFrameType_eqb (eFrameType info) videoFrameTypeSkip); [reflexivity|].
  rewrite total_size_loop_exact by (try assumption; lia). rewrite Z.add_0_l.
  rewrite Z.gtb_ltb.
  destruct (cap <? frame_total (sLayerInfo info)) eqn:Hcmp; [reflexivity|].
  apply Z.ltb_ge in Hcmp.
  pose proof (copy_loop_concat cap (sLayerInfo info) [] buf Hnn Hpres) as Hcopy.
  simpl in Hcopy. rewrite Hcopy by lia. reflexivity.
Qed.

End EncodeContract.

(** ** [h264_encoder_encode]: what every call leaves behind *)

Section EncodeInvariants.

Context {E : Type} `{ISVCEncoder E}.

(** The context a call leaves: the one it found, or that one with the flag
    cleared and the engine in its new state. *)
Lemma encode_handle_after (ctx : encoder_context_t E)
  (y u v : option (list Byte.byte)) (stride_y stride_u stride_v : Z)
  (out_buf : option (list Byte.byte)) (cap : Z) (out_size is_keyframe : option Z) :
  let res := h264_encoder_encode (Some ctx) y u v stride_y stride_u stride_v
               out_buf cap out_size is_keyframe in
  handle_after res = Some ctx
  \/ exists eng', encoder ctx <> None
                  /\ handle_after res = Some (set_encoder (ctx_at_encode ctx) (Some eng')).
Proof.
  destruct y as [y|], u as [u|], v as [v|], out_buf as [buf|],
    out_size as [os|], is_keyframe as [ik|]; try (left; reflexivity).
  destruct (encoder ctx) as [eng|] eqn:Hlive.
  - destruct (EncodeFrame (engine_at_encode ctx eng)
                (source_picture ctx y u v stride_y stride_u stride_v))
      as [[r info] eng'] eqn:Hframe.
    destruct (encode_live_effects ctx eng eng' y u v buf stride_y stride_u stride_v
                cap os ik r info Hlive Hframe) as [_ Hhandle].
    right. exists eng'. split; [discriminate|exact Hhandle].
  - left. cbv zeta. rewrite encode_no_engine by exact Hlive. reflexivity.
Qed.

Lemma configuration_ctx_at_encode (ctx : encoder_context_t E) (e : option E) :
  configuration (set_encoder (ctx_at_encode ctx) e) = configuration ctx.
Proof.
  unfold configuration, ctx_at_encode.
  destruct (negb (force_idr ctx =? 0)); reflexivity.
Qed.

Lemma encode_keeps_context (ctx : encoder_context_t E)
  (y u v : option (list Byte.byte)) (stride_y stride_u stride_v : Z)
  (out_buf : option (list Byte.byte)) (cap : Z) (out_size is_keyframe : option Z) :
  exists ctx',
    handle_after (h264_encoder_encode (Some ctx) y u v stride_y stride_u stride_v
                    out_buf cap out_size is_keyframe) = Some ctx'
    /\ configuration ctx' = configuration ctx
    /\ (encoder ctx' = None <-> encoder ctx = None).
Proof.
  destruct (encode_handle_after ctx y u v stride_y stride_u stride_v
              out_buf cap out_size is_keyframe) as [Hsame|(eng' & Hlive & Hnew)].
  - exists ctx. split; [exact Hsame|]. split; reflexivity.
  - exists (set_encoder (ctx_at_encode ctx) (Some eng')).
    split; [exact Hnew|]. split; [apply configuration_ctx_at_encode|].
    simpl. split; [discriminate|contradiction].
Qed.

(** Every call, whatever its arguments and whatever it returns, leaves
    [width], [height], [fps], [bitrate] and [keyint] of the context as they
    were, and leaves a context with an engine exactly if it had one. *)
Theorem encode_preserves_configuration (ctx : encoder_context_t E)
  (y u v : option (list Byte.byte)) (stride_y stride_u stride_v : Z)
  (out_buf : option (list Byte.byte)) (cap : Z) (out_size is_keyframe : option Z) :
  exists ctx',
    handle_after (h264_encoder_encode (Some ctx) y u v stride_y stride_u stride_v
                    out_buf cap out_size is_keyframe) = Some ctx'
    /\ configuration ctx' = configuration ctx
    /\ (encoder ctx' = None <-> encoder ctx = None).
Proof.
  destruct (encode_handle_after ctx y u v stride_y stride_u stride_v
              out_buf cap out_size is_keyframe) as [Hsame|(eng' & Hlive & Hnew)].
  - exists ctx. split; [exact Hsame|]. split; [reflexivity|tauto].
  - exists (set_encoder (ctx_at_encode ctx) (Some eng')).
    split; [exact Hnew|]. split; [apply configuration_ctx_at_encode|].
    cbn [encoder set_encoder]. split; intros Hnone; [discriminate|contradiction].
Qed.

(** Every call makes no engine call at all, or one [EncodeFrame], or
    [ForceIntraFrame (true)] followed by one [EncodeFrame]: nothing else
    leaves the shim. *)
Theorem encode_calls_shape (h : h264_encoder_t E)
  (y u v : option (list Byte.byte)) (stride_y stride_u stride_v : Z)
  (out_buf : option (list Byte.byte)) (cap : Z) (out_size is_keyframe : option Z) :
  let log := calls (h264_encoder_encode h y u v stride_y stride_u stride_v
                      out_buf cap out_size is_keyframe) in
  log = []
  \/ exists pic, log = [EvEncodeFrame pic] \/ log = [EvForceIntraFrame true; EvEncodeFrame pic].
Proof.
  destruct h as [ctx|], y as [y|], u as [u|], v as [v|], out_buf as [buf|],
    out_size as [os|], is_keyframe as [ik|]; try (left; reflexivity).
  destruct (encoder ctx) as [eng|] eqn:Hlive.
  - destruct (EncodeFrame (engine_at_encode ctx eng)
                (source_picture ctx y u v stride_y stride_u stride_v))
      as [[r info] eng'] eqn:Hframe.
    destruct (encode_live_effects ctx eng eng' y u v buf stride_y stride_u stride_v
                cap os ik r info Hlive Hframe) as [Hcalls _].
    cbv zeta. rewrite Hcalls. right.
    exists (source_picture ctx y u v stride_y stride_u stride_v).
    unfold calls_of_encode. destruct (negb (force_idr ctx =? 0)); auto.
  - left. cbv zeta. rewrite encode_no_engine by exact Hlive. reflexivity.
Qed.

(** The defensive bound of line 204.  Whenever the call returns without
    undefined behaviour - every [memcpy] of line 208 inside its two objects
    - the buffer keeps its size and every byte at or beyond [out_buf_size]
    keeps its value: also when the call fails, when it returns from inside
    the copy loop, and when the total of line 184 is not the sum of the
    layer sizes. *)
Theorem encode_never_writes_beyond_capacity (h : h264_encoder_t E)
  (y u v : option (list Byte.byte)) (stride_y stride_u stride_v : Z)
  (buf : list Byte.byte) (cap : Z) (out_size is_keyframe : option Z) (code : Z) :
  Z.of_nat (length buf) <= INT_MAX ->
  ret (h264_encoder_encode h y u v stride_y stride_u stride_v
         (Some buf) cap out_size is_keyframe) = Some code ->
  exists buf',
    out_buf_after (h264_encoder_encode h y u v stride_y stride_u stride_v
                     (Some buf) cap out_size is_keyframe) = Some buf'
    /\ length buf' = length buf
    /\ skipn (Z.to_nat cap) buf' = skipn (Z.to_nat cap) buf.
Proof.
  intros Hlen.
  destruct h as [ctx|], y as [y|], u as [u|], v as [v|],
    out_size as [os|], is_keyframe as [ik|];
    try (intros _; exists buf; repeat split; reflexivity).
  destruct (encoder ctx) as [eng|] eqn:Hlive.
  - destruct (EncodeFrame (engine_at_encode ctx eng)
                (source_picture ctx y u v stride_y stride_u stride_v))
      as [[r info] eng'] eqn:Hframe.
    destruct (copy_loop_keeps_tail cap (sLayerInfo info) 0 buf Hlen) as [Hl Ht].
    encode_live_cases Hlive Hframe; simpl; intros Hdefined;
      try (exists buf; repeat split; reflexivity);
      try discriminate;
      simpl in Hl, Ht; eauto.
  - intros _. exists buf. rewrite encode_no_engine by exact Hlive.
    repeat split; reflexivity.
Qed.

(** Lines 184 and 212.  On a successful return for a frame that was not
    skipped, [*out_size] is the [total_size] computed at lines 177-182,
    and it does not exceed [out_buf_size] - whatever the engine reported. *)
Theorem encode_bytes_written_is_total (ctx : encoder_context_t E) (eng eng' : E)
  (y u v buf : list Byte.byte) (stride_y stride_u stride_v cap os ik r : Z)
  (info : SFrameBSInfo) :
  encoder ctx = Some eng ->
  EncodeFrame (engine_at_encode ctx eng)
    (source_picture ctx y u v stride_y stride_u stride_v) = (r, info, eng') ->
  eFrameType info <> videoFrameTypeSkip ->
  let res := h264_encoder_encode (Some ctx) (Some y) (Some u) (Some v)
               stride_y stride_u stride_v (Some buf) cap (Some os) (Some ik) in
  ret res = Some H264_SUCCESS ->
  out_size_after res = Some (total_size_loop 0 (sLayerInfo info))
  /\ total_size_loop 0 (sLayerInfo info) <= cap.
Proof.
  intros Hlive Hframe Hns res. subst res.
  encode_live_cases Hlive Hframe; simpl; try discriminate; intros _.
  - apply EVideoFrameType_eqb_eq in Hskipped. contradiction.
  - rewrite (copy_loop_done_offset_is_total _ _ _ _ _ Hcopy).
    split; [reflexivity|].
    rewrite Z.gtb_ltb in Hlarge. apply Z.ltb_ge in Hlarge. exact Hlarge.
Qed.

(** After every call that reached the engine and returned without
    undefined behaviour - every [memcpy] of line 208 inside its two
    objects - [*out_size] is a count of bytes that lie in the buffer: it
    is never negative and never more than the buffer holds. *)
Theorem encode_bytes_written_in_buffer (ctx : encoder_context_t E) (eng : E)
  (y u v buf : list Byte.byte) (stride_y stride_u stride_v cap os ik code : Z) :
  encoder ctx = Some eng ->
  Z.of_nat (length buf) <= INT_MAX ->
  ret (h264_encoder_encode (Some ctx) (Some y) (Some u) (Some v)
         stride_y stride_u stride_v (Some buf) cap (Some os) (Some ik)) = Some code ->
  exists n,
    out_size_after (h264_encoder_encode (Some ctx) (Some y) (Some u) (Some v)
                      stride_y stride_u stride_v (Some buf) cap (Some os) (Some ik))
    = Some n
    /\ 0 <= n <= Z.of_nat (length buf).
Proof.
  intros Hlive Hlen.
  destruct (EncodeFrame (engine_at_encode ctx eng)
              (source_picture ctx y u v stride_y stride_u stride_v))
    as [[r info] eng'] eqn:Hframe.
  encode_live_cases Hlive Hframe; simpl; intros Hdefined;
    try discriminate;
    try (exists 0; split; [reflexivity|lia]).
  exists offset. split; [reflexivity|].
  eapply copy_loop_done_bounds; [exact Hlen| |exact Hcopy]. lia.
Qed.

End EncodeInvariants.

(** ** [h264_encoder_create] *)

Section Create.

Context {E : Type} `{ISVCEncoder E}.

(** [InitializeExt] is only reached with validated inputs, and what it is
    given is the derivation of lines 60-104 over some engine's defaults. *)
Lemma create_initialize_param (env : Environment E)
  (width height fps bitrate keyint threads : Z) (param : SEncParamExt) :
  In (EvInitializeExt param)
     (snd (h264_encoder_create env width height fps bitrate keyint threads)) ->
  (0 < width /\ 0 < height /\ 0 < fps /\ 0 < bitrate /\ 0 < keyint)
  /\ exists eng, param = derive_params (GetDefaultParams eng)
                           width height fps bitrate keyint threads.
Proof.
  unfold h264_encoder_create. intros Hin.
  destruct ((width <=? 0) || (height <=? 0) || (fps <=? 0) || (bitrate <=? 0)
            || (keyint <=? 0)) eqn:Hbad; [contradiction|].
  rewrite !orb_false_iff, !Z.leb_gt in Hbad.
  split; [intuition lia|].
  destruct (negb (calloc_succeeds env)); [simpl in Hin; intuition discriminate|].
  destruct (WelsCreateSVCEncoder env) as [r created].
  destruct (if negb (r =? 0) then None else created) as [eng|];
    [|simpl in Hin; intuition discriminate].
  exists eng.
  destruct (InitializeExt eng _) as [r' eng2].
  destruct (negb (r' =? cmResultSuccess)); simpl in Hin;
    repeat (destruct Hin as [Hin|Hin]; [try discriminate; congruence|]);
    contradiction.
Qed.

(** Lines 38-47 and 106-119.  With valid inputs, memory, an engine and an
    accepted configuration, [h264_encoder_create] returns a context that
    stores the five inputs, has the flag clear, and holds the engine as
    [InitializeExt] left it with the data format set to I420; the calls are
    [calloc], [WelsCreateSVCEncoder], [GetDefaultParams], [InitializeExt],
    [SetOption], in this order and nothing else. *)
Theorem create_succeeds (env : Environment E)
  (width height fps bitrate keyint threads : Z) (eng eng' : E) :
  0 < width -> 0 < height -> 0 < fps -> 0 < bitrate -> 0 < keyint ->
  calloc_succeeds env = true ->
  WelsCreateSVCEncoder env = (0, Some eng) ->
  InitializeExt eng (derive_params (GetDefaultParams eng)
                       width height fps bitrate keyint threads)
  = (cmResultSuccess, eng') ->
  h264_encoder_create env width height fps bitrate keyint threads
  = (Some (Build_encoder_context_t
             (Some (SetOption eng' ENCODER_OPTION_DATAFORMAT videoFormatI420))
             width height fps bitrate keyint 0),
     [EvCalloc; EvWelsCreateSVCEncoder; EvGetDefaultParams;
      EvInitializeExt (derive_params (GetDefaultParams eng)
                         width height fps bitrate keyint threads);
      EvSetOption ENCODER_OPTION_DATAFORMAT videoFormatI420]).
Proof.
  intros Hw Hh Hf Hb Hk Hmem Hmade Hinit. unfold h264_encoder_create.
  replace ((width <=? 0) || (height <=? 0) || (fps <=? 0) || (bitrate <=? 0)
           || (keyint <=? 0)) with false
    by (symmetry; rewrite !orb_false_iff, !Z.leb_gt; lia).
  rewrite Hmem, Hmade. simpl. rewrite Hinit. reflexivity.
Qed.

(** Whenever [h264_encoder_create] returns a handle, the context behind it
    holds an engine, stores exactly the inputs, all five of them positive,
    and has the flag clear; a handle without engine is never returned. *)
Theorem create_returns_live_handle (env : Environment E)
  (width height fps bitrate keyint threads : Z) (ctx : encoder_context_t E) :
  fst (h264_encoder_create env width height fps bitrate keyint threads) = Some ctx ->
  encoder ctx <> None
  /\ configuration ctx = (width, height, fps, bitrate, keyint)
  /\ force_idr ctx = 0
  /\ 0 < width /\ 0 < height /\ 0 < fps /\ 0 < bitrate /\ 0 < keyint.
Proof.
  unfold h264_encoder_create.
  destruct ((width <=? 0) || (height <=? 0) || (fps <=? 0) || (bitrate <=? 0)
            || (keyint <=? 0)) eqn:Hbad; [discriminate|].
  rewrite !orb_false_iff, !Z.leb_gt in Hbad.
  destruct (negb (calloc_succeeds env)); [discriminate|].
  destruct (WelsCreateSVCEncoder env) as [r created].
  destruct (if negb (r =? 0) then None else created) as [eng|]; [|discriminate].
  destruct (InitializeExt eng _) as [r' eng2].
  destruct (negb (r' =? cmResultSuccess)); [discriminate|].
  simpl. intros Hctx. injection Hctx as <-. simpl.
  repeat split; try discriminate; intuition lia.
Qed.

(** Lines 47-51.  When [WelsCreateSVCEncoder] returns non-zero or stores no
    engine, [h264_encoder_create] frees the context and returns [NULL];
    [InitializeExt] is not reached. *)
Theorem create_engine_creation_failure (env : Environment E)
  (width height fps bitrate keyint threads : Z) :
  0 < width -> 0 < height -> 0 < fps -> 0 < bitrate -> 0 < keyint ->
  calloc_succeeds env = true ->
  fst (WelsCreateSVCEncoder env) <> 0 \/ snd (WelsCreateSVCEncoder env) = None ->
  h264_encoder_create env width height fps bitrate keyint threads
  = (None, [EvCalloc; EvWelsCreateSVCEncoder; EvFree]).
Proof.
  intros Hw Hh Hf Hb Hk Hmem Hfail. unfold h264_encoder_create.
  replace ((width <=? 0) || (height <=? 0) || (fps <=? 0) || (bitrate <=? 0)
           || (keyint <=? 0)) with false
    by (symmetry; rewrite !orb_false_iff, !Z.leb_gt; lia).
  rewrite Hmem. simpl.
  destruct (WelsCreateSVCEncoder env) as [r created]. simpl in Hfail.
  destruct (r =? 0) eqn:Hr; simpl; [|reflexivity].
  apply Z.eqb_eq in Hr. destruct Hfail as [Hne| ->]; [contradiction|reflexivity].
Qed.

(** Lines 107-113.  When [InitializeExt] rejects the configuration,
    [h264_encoder_create] uninitializes and destroys the engine, then frees
    the context, and returns [NULL]; [SetOption] is not reached. *)
Theorem create_init_failure_releases_engine (env : Environment E)
  (width height fps bitrate keyint threads r : Z) (eng eng' : E) :
  0 < width -> 0 < height -> 0 < fps -> 0 < bitrate -> 0 < keyint ->
  calloc_succeeds env = true ->
  WelsCreateSVCEncoder env = (0, Some eng) ->
  InitializeExt eng (derive_params (GetDefaultParams eng)
                       width height fps bitrate keyint threads) = (r, eng') ->
  r <> cmResultSuccess ->
  h264_encoder_create env width height fps bitrate keyint threads
  = (None,
     [EvCalloc; EvWelsCreateSVCEncoder; EvGetDefaultParams;
      EvInitializeExt (derive_params (GetDefaultParams eng)
                         width height fps bitrate keyint threads);
      EvUninitialize; EvWelsDestroySVCEncoder; EvFree]).
Proof.
  intros Hw Hh Hf Hb Hk Hmem Hmade Hinit Hr. unfold h264_encoder_create.
  replace ((width <=? 0) || (height <=? 0) || (fps <=? 0) || (bitrate <=? 0)
           || (keyint <=? 0)) with false
    by (symmetry; rewrite !orb_false_iff, !Z.leb_gt; lia).
  rewrite Hmem, Hmade. simpl. rewrite Hinit.
  replace (negb (r =? cmResultSuccess)) with true
    by (symmetry; apply negb_true_iff, Z.eqb_neq; exact Hr).
  reflexivity.
Qed.

(** An [int] of at most 24 significant bits converts to [float] exactly. *)
Lemma round_to_float_exact (z : Z) :
  0 <= z <= 16777216 -> round_to_float z = z.
Proof.
  intros Hz. unfold round_to_float.
  destruct (Z.log2 (Z.abs z) <? 24) eqn:He; [reflexivity|].
  apply Z.ltb_ge in He. rewrite Z.abs_eq in He by lia.
  assert (Hz' : z = 16777216).
  { destruct (Z.eq_dec z 16777216) as [Heq|Hne]; [exact Heq|].
    destruct (Z.eq_dec z 0) as [Hzero|Hpos]; [subst z; simpl in He; lia|].
    assert (Hlt : Z.log2 z < 24).
    { apply Z.log2_lt_pow2; [lia|]. change (2 ^ 24) with 16777216. lia. }
    lia. }
  subst z. reflexivity.
Qed.

(** Lines 61-65 and 75.  The configuration given to [InitializeExt] carries
    the caller's width, height, target bitrate and keyframe interval
    unchanged; the frame rate is the caller's exactly as long as it has at
    most 24 significant bits (up to 16777216), since [(float)fps] rounds
    beyond; and the maximum bitrate is exactly twice the target as long as
    twice the target fits an [int]. *)
Theorem create_rate_parameters (env : Environment E)
  (width height fps bitrate keyint threads : Z) (param : SEncParamExt) :
  In (EvInitializeExt param)
     (snd (h264_encoder_create env width height fps bitrate keyint threads)) ->
  keyint <= INT_MAX ->
  iPicWidth param = width
  /\ iPicHeight param = height
  /\ (fps <= 16777216 -> fMaxFrameRate param = float_integral fps)
  /\ iTargetBitrate param = bitrate
  /\ uiIntraPeriod param = keyint
  /\ (bitrate <= 1073741823 -> iMaxBitrate param = 2 * bitrate).
Proof.
  intros Hin Hk.
  destruct (create_initialize_param _ _ _ _ _ _ _ _ Hin)
    as [(Hw & Hh & Hf & Hb & Hkp) [eng ->]].
  unfold derive_params.
  cbn [iPicWidth iPicHeight fMaxFrameRate iTargetBitrate uiIntraPeriod iMaxBitrate].
  repeat split.
  - intros Hfps. unfold float_of_int. rewrite round_to_float_exact by lia. reflexivity.
  - unfold to_uint, INT_MAX in *. apply Z.mod_small. lia.
  - intros Hfit. unfold int_mul. rewrite wrap_int_id; [lia|].
    unfold int_range, INT_MIN, INT_MAX. lia.
Qed.

(** Lines 67-68 and 87-91.  The configuration has one spatial and one
    temporal layer, and spatial layer 0 repeats the picture's geometry,
    frame rate, target bitrate and maximum bitrate. *)
Theorem create_single_layer_mirrors_picture (env : Environment E)
  (width height fps bitrate keyint threads : Z) (param : SEncParamExt)
  (layer0 : SSpatialLayerConfig) (others : list SSpatialLayerConfig) :
  In (EvInitializeExt param)
     (snd (h264_encoder_create env width height fps bitrate keyint threads)) ->
  sSpatialLayers param = layer0 :: others ->
  iSpatialLayerNum param = 1
  /\ iTemporalLayerNum param = 1
  /\ iVideoWidth layer0 = iPicWidth param
  /\ iVideoHeight layer0 = iPicHeight param
  /\ fFrameRate layer0 = fMaxFrameRate param
  /\ iSpatialBitrate layer0 = iTargetBitrate param
  /\ iMaxSpatialBitrate layer0 = iMaxBitrate param.
Proof.
  intros Hin.
  destruct (create_initialize_param _ _ _ _ _ _ _ _ Hin) as [_ [eng ->]].
  simpl. destruct (sSpatialLayers (GetDefaultParams eng)); simpl; [discriminate|].
  intros Hl. injection Hl as <- _. simpl. repeat split.
Qed.

End Create.

(** ** Sequences of calls and whole lives *)

Lemma count_events_app (p : Event -> bool) (a b : list Event) :
  count_events p (a ++ b) = (count_events p a + count_events p b)%nat.
Proof. unfold count_events. rewrite filter_app, length_app. reflexivity. Qed.

Lemma count_events_none (p : Event -> bool) (log : list Event) :
  forallb (fun e => negb (p e)) log = true -> count_events p log = 0%nat.
Proof.
  unfold count_events. induction log as [|e log IH]; simpl; [reflexivity|].
  rewrite andb_true_iff. intros [He Hl].
  destruct (p e); [discriminate|]. apply IH. exact Hl.
Qed.

Section SessionProperties.

Context {E : Type} `{ISVCEncoder E}.

Lemma run_calls_absent (cs : list ShimCall) :
  run_calls (@None (encoder_context_t E)) cs = (None, []).
Proof.
  induction cs as [|c cs IH]; simpl; [reflexivity|].
  destruct c; simpl; [|exact IH]. rewrite IH. reflexivity.
Qed.

Lemma force_idr_keeps_context (ctx : encoder_context_t E) :
  exists ctx',
    snd (h264_encoder_force_idr (Some ctx)) = Some ctx'
    /\ configuration ctx' = configuration ctx
    /\ encoder ctx' = encoder ctx.
Proof.
  unfold h264_encoder_force_idr. destruct (encoder ctx) eqn:Heng; simpl.
  - exists (set_force_idr ctx 1). simpl. rewrite Heng. auto.
  - exists ctx. auto.
Qed.

Lemma run_calls_keeps_context (cs : list ShimCall) : forall (ctx : encoder_context_t E),
  exists ctx',
    fst (run_calls (Some ctx) cs) = Some ctx'
    /\ configuration ctx' = configuration ctx
    /\ (encoder ctx' = None <-> encoder ctx = None).
Proof.
  induction cs as [|c cs IH]; intros ctx.
  - exists ctx. simpl. repeat split; auto.
  - destruct c as [y u v sy su sv out_buf cap out_size is_keyframe|]; cbn [run_calls].
    + destruct (encode_keeps_context ctx y u v sy su sv
                  out_buf cap out_size is_keyframe) as (ctx1 & Hh & Hc & He).
      destruct (ret _).
      * rewrite Hh. destruct (IH ctx1) as (ctx2 & Hh2 & Hc2 & He2).
        destruct (run_calls (Some ctx1) cs) as [h' log]. cbn [fst] in *.
        exists ctx2. split; [exact Hh2|]. split; [congruence|]. tauto.
      * cbn [fst]. exists ctx1. auto.
    + destruct (force_idr_keeps_context ctx) as (ctx1 & Hh & Hc & He).
      rewrite Hh. destruct (IH ctx1) as (ctx2 & Hh2 & Hc2 & He2).
      exists ctx2. split; [exact Hh2|]. split; [congruence|].
      rewrite He2, He. tauto.
Qed.

Lemma encode_calls_no_release (h : h264_encoder_t E)
  (y u v : option (list Byte.byte)) (stride_y stride_u stride_v : Z)
  (out_buf : option (list Byte.byte)) (cap : Z) (out_size is_keyframe : option Z) :
  forallb (fun e => negb (is_release_event e))
    (calls (h264_encoder_encode h y u v stride_y stride_u stride_v
              out_buf cap out_size is_keyframe)) = true.
Proof.
  destruct h as [ctx|], y as [y|], u as [u|], v as [v|], out_buf as [buf|],
    out_size as [os|], is_keyframe as [ik|]; try reflexivity.
  destruct (encoder ctx) as [eng|] eqn:Hlive.
  - destruct (EncodeFrame (engine_at_encode ctx eng)
                (source_picture ctx y u v stride_y stride_u stride_v))
      as [[r info] eng'] eqn:Hframe.
    destruct (encode_live_effects ctx eng eng' y u v buf stride_y stride_u stride_v
                cap os ik r info Hlive Hframe) as [Hcalls _].
    cbv zeta in Hcalls. rewrite Hcalls. unfold calls_of_encode.
    destruct (negb (force_idr ctx =? 0)); reflexivity.
  - rewrite encode_no_engine by exact Hlive. reflexivity.
Qed.

Lemma run_calls_no_release (cs : list ShimCall) : forall (h : h264_encoder_t E),
  forallb (fun e => negb (is_release_event e)) (snd (run_calls h cs)) = true.
Proof.
  induction cs as [|c cs IH]; intros h; [reflexivity|].
  destruct c as [y u v sy su sv out_buf cap out_size is_keyframe|];
    cbn [run_calls]; [|apply IH].
  pose proof (encode_calls_no_release h y u v sy su sv out_buf cap out_size is_keyframe)
    as Hcall.
  destruct (ret _); [|exact Hcall].
  specialize (IH (handle_after (h264_encoder_encode h y u v sy su sv
                                  out_buf cap out_size is_keyframe))).
  destruct (run_calls _ cs) as [h' log]. cbn [fst snd] in *.
  rewrite forallb_app, Hcall, IH. reflexivity.
Qed.

(** One call to [h264_encoder_encode] turns a waiting request into one
    [ForceIntraFrame], or leaves it waiting if the engine is not reached. *)
Lemma encode_spends_request (h : h264_encoder_t E)
  (y u v : option (list Byte.byte)) (stride_y stride_u stride_v : Z)
  (out_buf : option (list Byte.byte)) (cap : Z) (out_size is_keyframe : option Z) :
  let res := h264_encoder_encode h y u v stride_y stride_u stride_v
               out_buf cap out_size is_keyframe in
  (count_events is_EvForceIntraFrame (calls res) + pending_request (handle_after res))%nat
  = pending_request h.
Proof.
  destruct h as [ctx|], y as [y|], u as [u|], v as [v|], out_buf as [buf|],
    out_size as [os|], is_keyframe as [ik|]; try reflexivity.
  destruct (encoder ctx) as [eng|] eqn:Hlive.
  - destruct (EncodeFrame (engine_at_encode ctx eng)
                (source_picture ctx y u v stride_y stride_u stride_v))
      as [[r info] eng'] eqn:Hframe.
    destruct (encode_live_effects ctx eng eng' y u v buf stride_y stride_u stride_v
                cap os ik r info Hlive Hframe) as [Hcalls Hhandle].
    cbv zeta. rewrite Hcalls, Hhandle.
    unfold calls_of_encode, ctx_at_encode, pending_request.
    destruct (force_idr ctx =? 0) eqn:Hflag; simpl; rewrite ?Hflag; reflexivity.
  - cbv zeta. rewrite encode_no_engine by exact Hlive. reflexivity.
Qed.

Lemma force_idr_pending (h : h264_encoder_t E) :
  (pending_request (snd (h264_encoder_force_idr h)) <= 1)%nat.
Proof.
  unfold h264_encoder_force_idr, pending_request.
  destruct h as [ctx|]; simpl; [|lia].
  destruct (encoder ctx); simpl; [lia|].
  destruct (force_idr ctx =? 0); lia.
Qed.

Lemma run_calls_forced_bound (cs : list ShimCall) : forall (h : h264_encoder_t E),
  (count_events is_EvForceIntraFrame (snd (run_calls h cs))
   + pending_request (fst (run_calls h cs))
   <= pending_request h + length (filter is_CallForceIdr cs))%nat.
Proof.
  induction cs as [|c cs IH]; intros h; [simpl; lia|].
  destruct c as [y u v sy su sv out_buf cap out_size is_keyframe|];
    cbn [run_calls filter is_CallForceIdr length].
  - pose proof (encode_spends_request h y u v sy su sv out_buf cap out_size is_keyframe)
      as Hspend. cbv zeta in Hspend.
    destruct (ret _); [|cbn [fst snd]; lia].
    specialize (IH (handle_after (h264_encoder_encode h y u v sy su sv
                                    out_buf cap out_size is_keyframe))).
    destruct (run_calls _ cs) as [h' log]. cbn [fst snd] in *.
    rewrite count_events_app. lia.
  - specialize (IH (snd (h264_encoder_force_idr h))).
    pose proof (force_idr_pending h). lia.
Qed.

(** On a handle with an engine, any sequence of [h264_encoder_encode] and
    [h264_encoder_force_idr] calls - with any arguments, failing or not -
    leaves a handle that still has its engine and its configuration and has
    released nothing; [h264_encoder_destroy] then uninitializes the engine,
    destroys it and frees the context, in this order. *)
Theorem session_keeps_handle_live (ctx : encoder_context_t E) (cs : list ShimCall) :
  encoder ctx <> None ->
  exists ctx',
    fst (run_calls (Some ctx) cs) = Some ctx'
    /\ encoder ctx' <> None
    /\ configuration ctx' = configuration ctx
    /\ count_events is_release_event (snd (run_calls (Some ctx) cs)) = 0%nat
    /\ h264_encoder_destroy (fst (run_calls (Some ctx) cs))
       = [EvUninitialize; EvWelsDestroySVCEncoder; EvFree].
Proof.
  intros Hlive.
  destruct (run_calls_keeps_context cs ctx) as (ctx' & Hh & Hc & He).
  exists ctx'. split; [exact Hh|]. split; [tauto|]. split; [exact Hc|].
  split; [apply count_events_none, run_calls_no_release|].
  rewrite Hh. unfold h264_encoder_destroy.
  destruct (encoder ctx'); [reflexivity|]. tauto.
Qed.

(** A request forces at most one frame.  Starting from a handle with no
    request waiting, in any sequence of calls the engine receives at most
    as many [ForceIntraFrame] calls as [h264_encoder_force_idr] was called. *)
Theorem session_forces_at_most_requests (h : h264_encoder_t E) (cs : list ShimCall) :
  pending_request h = 0%nat ->
  (count_events is_EvForceIntraFrame (snd (run_calls h cs))
   <= length (filter is_CallForceIdr cs))%nat.
Proof.
  intros Hclear. pose proof (run_calls_forced_bound cs h). lia.
Qed.

(** Create, any sequence of calls, destroy: the context is freed exactly
    once if [calloc] gave one and never otherwise, and the engine is
    destroyed exactly once if [WelsCreateSVCEncoder] returned 0 with an
    engine and never otherwise - whether or not [InitializeExt] accepted
    the configuration. *)
Theorem lifecycle_releases_once (env : Environment E)
  (width height fps bitrate keyint threads : Z) (cs : list ShimCall) :
  let valid := negb ((width <=? 0) || (height <=? 0) || (fps <=? 0)
                     || (bitrate <=? 0) || (keyint <=? 0)) in
  let allocated := valid && calloc_succeeds env in
  let engine_made := allocated && (fst (WelsCreateSVCEncoder env) =? 0)
                     && (match snd (WelsCreateSVCEncoder env) with Some _ => true | None => false end) in
  let log := lifecycle env width height fps bitrate keyint threads cs in
  count_events is_EvFree log = (if allocated then 1%nat else 0%nat)
  /\ count_events is_EvWelsDestroySVCEncoder log = (if engine_made then 1%nat else 0%nat).
Proof.
  cbv zeta. unfold lifecycle, h264_encoder_create.
  destruct ((width <=? 0) || (height <=? 0) || (fps <=? 0) || (bitrate <=? 0)
            || (keyint <=? 0)); simpl negb; cbv iota.
  { rewrite run_calls_absent. split; reflexivity. }
  destruct (calloc_succeeds env); simpl negb; cbv iota.
  2: { rewrite run_calls_absent. split; reflexivity. }
  destruct (WelsCreateSVCEncoder env) as [r created]. simpl fst. simpl snd.
  destruct (r =? 0); simpl negb; cbv iota.
  2: { rewrite run_calls_absent. split; reflexivity. }
  destruct created as [eng|].
  2: { rewrite run_calls_absent. split; reflexivity. }
  destruct (InitializeExt eng _) as [r' eng2].
  destruct (negb (r' =? cmResultSuccess)).
  { rewrite run_calls_absent. split; reflexivity. }
  set (ctx := set_encoder _ _).
  assert (Hlive : encoder ctx <> None) by (subst ctx; simpl; discriminate).
  destruct (run_calls_keeps_context cs ctx) as (ctx' & Hh & _ & Heng).
  pose proof (run_calls_no_release cs (Some ctx)) as Hnr.
  destruct (run_calls (Some ctx) cs) as [h' used]. simpl in Hh, Hnr. subst h'.
  assert (Hd : h264_encoder_destroy (Some ctx')
               = [EvUninitialize; EvWelsDestroySVCEncoder; EvFree]).
  { unfold h264_encoder_destroy. destruct (encoder ctx'); [reflexivity|tauto]. }
  rewrite Hd. rewrite !count_events_app.
  assert (Hf : count_events is_EvFree used = 0%nat).
  { apply count_events_none. rewrite forallb_forall in Hnr |- *.
    intros e He. specialize (Hnr e He). destruct e; simpl in *; congruence. }
  assert (Hw : count_events is_EvWelsDestroySVCEncoder used = 0%nat).
  { apply count_events_none. rewrite forallb_forall in Hnr |- *.
    intros e He. specialize (Hnr e He). destruct e; simpl in *; congruence. }
  rewrite Hf, Hw. split; reflexivity.
Qed.

End SessionProperties.

(** ** Concrete runs for the further properties *)

Lemma encode_rejects_null_pointer_witness :
  h264_encoder_encode (Some (scripted_ctx [(0, frame_idr)] 1))
    (Some plane) None (Some plane) 2 1 1 (Some buffer8) 8 (Some 77) (Some 55)
  = Build_encode_result (Some H264_ERROR_INVALID_PARAM)
      (Some (scripted_ctx [(0, frame_idr)] 1)) (Some buffer8) (Some 77) (Some 55) [].
Proof.
  apply (encode_rejects_null_pointer (Some (scripted_ctx [(0, frame_idr)] 1))
           (Some plane) None (Some plane) 2 1 1 (Some buffer8) 8 (Some 77) (Some 55)).
  right. right. left. reflexivity.
Defined.

Lemma encode_without_engine_witness :
  let ctx := Build_encoder_context_t (@None ScriptedEngine) 2 2 30 500000 60 1 in
  let res := h264_encoder_encode (Some ctx) (Some plane) (Some plane) (Some plane) 2 1 1
               (Some buffer8) 8 (Some 77) (Some 55) in
  ret res = Some H264_ERROR_NULL_ENCODER
  /\ out_size_after res = Some 77
  /\ is_keyframe_after res = Some 55
  /\ out_buf_after res = Some buffer8
  /\ handle_after res = Some ctx
  /\ calls res = [].
Proof.
  apply (encode_without_engine
           (Build_encoder_context_t (@None ScriptedEngine) 2 2 30 500000 60 1)
           plane plane plane buffer8 2 1 1 8 77 55).
  reflexivity.
Defined.

Lemma encode_engine_failure_witness :
  let res := h264_encoder_encode (Some (scripted_ctx [(4, frame_idr)] 0))
               (Some plane) (Some plane) (Some plane) 2 1 1
               (Some buffer8) 8 (Some 77) (Some 55) in
  ret res = Some H264_ERROR_ENCODE_FAILED
  /\ out_size_after res = Some 0
  /\ is_keyframe_after res = Some 0
  /\ out_buf_after res = Some buffer8.
Proof.
  apply (encode_engine_failure (scripted_ctx [(4, frame_idr)] 0)
           [(4, frame_idr)] [] plane plane plane buffer8 2 1 1 8 77 55 4 frame_idr).
  - reflexivity.
  - reflexivity.
  - discriminate.
Defined.

Lemma encode_keyframe_classification_witness :
  is_keyframe_after
    (h264_encoder_encode (Some (scripted_ctx [(0, frame_idr)] 0))
       (Some plane) (Some plane) (Some plane) 2 1 1 (Some buffer8) 8 (Some 77) (Some 55))
  = Some 1
  /\ is_keyframe_after
       (h264_encoder_encode (Some (scripted_ctx [(0, frame_p)] 0))
          (Some plane) (Some plane) (Some plane) 2 1 1 (Some buffer8) 8 (Some 77) (Some 55))
     = Some 0.
Proof.
  split.
  - apply (encode_keyframe_classification (scripted_ctx [(0, frame_idr)] 0)
             [(0, frame_idr)] [] plane plane plane buffer8 2 1 1 8 77 55 0 frame_idr).
    + reflexivity.
    + reflexivity.
    + reflexivity.
    + left. reflexivity.
  - apply (encode_keyframe_classification (scripted_ctx [(0, frame_p)] 0)
             [(0, frame_p)] [] plane plane plane buffer8 2 1 1 8 77 55 0 frame_p).
    + reflexivity.
    + reflexivity.
    + reflexivity.
    + discriminate.
    + discriminate.
Defined.

Lemma encode_error_reports_zero_bytes_witness :
  out_size_after
    (h264_encoder_encode (Some (scripted_ctx [(0, frame_idr)] 0))
       (Some plane) (Some plane) (Some plane) 2 1 1 (Some buffer8) 5 (Some 77) (Some 55))
  = Some 0.
Proof.
  apply (encode_error_reports_zero_bytes (scripted_ctx [(0, frame_idr)] 0)
           [(0, frame_idr)] plane plane plane buffer8 2 1 1 5 77 55
           H264_ERROR_OUTPUT_BUFFER_TOO_SMALL).
  - reflexivity.
  - reflexivity.
  - discriminate.
Defined.

Lemma encode_return_code_witness :
  ret (h264_encoder_encode (Some (scripted_ctx [(0, frame_idr)] 0))
         (Some plane) (Some plane) (Some plane) 2 1 1 (Some buffer8) 5 (Some 77) (Some 55))
  = Some (if negb (0 =? cmResultSuccess) then H264_ERROR_ENCODE_FAILED
          else if EVideoFrameType_eqb (eFrameType frame_idr) videoFrameTypeSkip
          then H264_SUCCESS
          else if 5 <? frame_total (sLayerInfo frame_idr)
          then H264_ERROR_OUTPUT_BUFFER_TOO_SMALL
          else H264_SUCCESS).
Proof.
  apply (encode_return_code (scripted_ctx [(0, frame_idr)] 0)
           [(0, frame_idr)] [] plane plane plane buffer8 2 1 1 5 77 55 0 frame_idr).
  - reflexivity.
  - reflexivity.
  - reflexivity.
  - reflexivity.
  - vm_compute. discriminate.
  - vm_compute. discriminate.
  - vm_compute. discriminate.
Defined.

Lemma encode_never_writes_beyond_capacity_witness :
  exists buf',
    out_buf_after
      (h264_encoder_encode (Some (scripted_ctx [(0, frame_idr)] 0))
         (Some plane) (Some plane) (Some plane) 2 1 1 (Some buffer8) 6 (Some 77) (Some 55))
    = Some buf'
    /\ length buf' = length buffer8
    /\ skipn (Z.to_nat 6) buf' = skipn (Z.to_nat 6) buffer8.
Proof.
  apply (encode_never_writes_beyond_capacity (Some (scripted_ctx [(0, frame_idr)] 0))
           (Some plane) (Some plane) (Some plane) 2 1 1 buffer8 6 (Some 77) (Some 55)
           H264_SUCCESS).
  - vm_compute. discriminate.
  - reflexivity.
Defined.

Lemma encode_bytes_written_is_total_witness :
  let res := h264_encoder_encode (Some (scripted_ctx [(0, frame_idr)] 0))
               (Some plane) (Some plane) (Some plane) 2 1 1
               (Some buffer8) 8 (Some 77) (Some 55) in
  out_size_after res = Some (total_size_loop 0 (sLayerInfo frame_idr))
  /\ total_size_loop 0 (sLayerInfo frame_idr) <= 8.
Proof.
  apply (encode_bytes_written_is_total (scripted_ctx [(0, frame_idr)] 0)
           [(0, frame_idr)] [] plane plane plane buffer8 2 1 1 8 77 55 0 frame_idr).
  - reflexivity.
  - reflexivity.
  - discriminate.
  - reflexivity.
Defined.

Lemma encode_bytes_written_in_buffer_witness :
  exists n,
    out_size_after
      (h264_encoder_encode (Some (scripted_ctx [(0, frame_idr)] 0))
         (Some plane) (Some plane) (Some plane) 2 1 1 (Some buffer8) 8 (Some 77) (Some 55))
    = Some n
    /\ 0 <= n <= Z.of_nat (length buffer8).
Proof.
  apply (encode_bytes_written_in_buffer (scripted_ctx [(0, frame_idr)] 0)
           [(0, frame_idr)] plane plane plane buffer8 2 1 1 8 77 55 H264_SUCCESS).
  - reflexivity.
  - vm_compute. discriminate.
  - reflexivity.
Defined.

Lemma create_succeeds_witness :
  h264_encoder_create (scripted_env [(0, frame_idr)]) 640 360 30 500000 60 0
  = (Some (Build_encoder_context_t
             (Some (SetOption [(0, frame_idr)] ENCODER_OPTION_DATAFORMAT videoFormatI420))
             640 360 30 500000 60 0),
     [EvCalloc; EvWelsCreateSVCEncoder; EvGetDefaultParams;
      EvInitializeExt (derive_params (GetDefaultParams [(0, frame_idr)])
                         640 360 30 500000 60 0);
      EvSetOption ENCODER_OPTION_DATAFORMAT videoFormatI420]).
Proof.
  apply (create_succeeds (scripted_env [(0, frame_idr)]) 640 360 30 500000 60 0
           [(0, frame_idr)] [(0, frame_idr)]); try lia; reflexivity.
Defined.

Lemma create_returns_live_handle_witness :
  let ctx := Build_encoder_context_t (Some [(0, frame_idr)]) 640 360 30 500000 60 0 in
  encoder ctx <> None
  /\ configuration ctx = (640, 360, 30, 500000, 60)
  /\ force_idr ctx = 0
  /\ 0 < 640 /\ 0 < 360 /\ 0 < 30 /\ 0 < 500000 /\ 0 < 60.
Proof.
  apply (create_returns_live_handle (scripted_env [(0, frame_idr)])
           640 360 30 500000 60 0
           (Build_encoder_context_t (Some [(0, frame_idr)]) 640 360 30 500000 60 0)).
  reflexivity.
Defined.

Lemma create_engine_creation_failure_witness :
  h264_encoder_create engineless_env 640 360 30 500000 60 0
  = (None, [EvCalloc; EvWelsCreateSVCEncoder; EvFree]).
Proof.
  apply (create_engine_creation_failure engineless_env 640 360 30 500000 60 0);
    try lia; [reflexivity|].
  left. discriminate.
Defined.

Lemma create_init_failure_releases_engine_witness :
  h264_encoder_create rejecting_env 640 360 30 500000 60 0
  = (None,
     [EvCalloc; EvWelsCreateSVCEncoder; EvGetDefaultParams;
      EvInitializeExt (derive_params (GetDefaultParams rejecting_engine)
                         640 360 30 500000 60 0);
      EvUninitialize; EvWelsDestroySVCEncoder; EvFree]).
Proof.
  apply (create_init_failure_releases_engine rejecting_env 640 360 30 500000 60 0 1
           rejecting_engine rejecting_engine); try lia; try reflexivity.
  discriminate.
Defined.

Lemma create_rate_parameters_witness :
  iMaxBitrate (derive_params scripted_defaults 640 360 30 500000 60 0) = 2 * 500000
  /\ uiIntraPeriod (derive_params scripted_defaults 640 360 30 500000 60 0) = 60
  /\ fMaxFrameRate (derive_params scripted_defaults 640 360 30 500000 60 0)
     = float_integral 30.
Proof.
  destruct (create_rate_parameters (scripted_env []) 640 360 30 500000 60 0
              (derive_params scripted_defaults 640 360 30 500000 60 0))
    as (_ & _ & Hfps & _ & Hk & Hmax).
  - right. right. right. left. reflexivity.
  - vm_compute. discriminate.
  - split; [apply Hmax; lia|]. split; [exact Hk|apply Hfps; lia].
Defined.

(** Beyond 24 significant bits the frame rate the engine is given is not
    the caller's: [(float)16777217] is 16777216. *)
Remark create_frame_rate_rounds :
  fMaxFrameRate (derive_params scripted_defaults 640 360 16777217 500000 60 0)
  = float_integral 16777216.
Proof. reflexivity. Qed.

Lemma create_single_layer_mirrors_picture_witness :
  let param := derive_params scripted_defaults 640 360 30 500000 60 0 in
  let layer0 := spatial_layer0 640 360 30 500000 in
  iSpatialLayerNum param = 1
  /\ iTemporalLayerNum param = 1
  /\ iVideoWidth layer0 = iPicWidth param
  /\ iVideoHeight layer0 = iPicHeight param
  /\ fFrameRate layer0 = fMaxFrameRate param
  /\ iSpatialBitrate layer0 = iTargetBitrate param
  /\ iMaxSpatialBitrate layer0 = iMaxBitrate param.
Proof.
  apply (create_single_layer_mirrors_picture (scripted_env []) 640 360 30 500000 60 0
           (derive_params scripted_defaults 640 360 30 500000 60 0)
           (spatial_layer0 640 360 30 500000)
           (repeat (spatial_layer0 0 0 0 0) 3)).
  - right. right. right. left. reflexivity.
  - reflexivity.
Defined.

Lemma session_keeps_handle_live_witness :
  let ctx := scripted_ctx [(0, frame_idr); (0, frame_idr)] 0 in
  exists ctx',
    fst (run_calls (Some ctx) session_calls) = Some ctx'
    /\ encoder ctx' <> None
    /\ configuration ctx' = configuration ctx
    /\ count_events is_release_event (snd (run_calls (Some ctx) session_calls)) = 0%nat
    /\ h264_encoder_destroy (fst (run_calls (Some ctx) session_calls))
       = [EvUninitialize; EvWelsDestroySVCEncoder; EvFree].
Proof.
  apply (session_keeps_handle_live
           (scripted_ctx [(0, frame_idr); (0, frame_idr)] 0) session_calls).
  discriminate.
Defined.

Lemma session_forces_at_most_requests_witness :
  let ctx := scripted_ctx [(0, frame_idr); (0, frame_idr)] 0 in
  (count_events is_EvForceIntraFrame (snd (run_calls (Some ctx) session_calls))
   <= length (filter is_CallForceIdr session_calls))%nat.
Proof.
  apply (session_forces_at_most_requests
           (Some (scripted_ctx [(0, frame_idr); (0, frame_idr)] 0)) session_calls).
  reflexivity.
Defined.

(** In that run the two requests before the first call force one frame, and
    the last request is still waiting at the end. *)
Example session_calls_run :
  let run := run_calls (Some (scripted_ctx [(0, frame_idr); (0, frame_idr)] 0))
               session_calls in
  count_events is_EvForceIntraFrame (snd run) = 1%nat
  /\ count_events is_EvEncodeFrame (snd run) = 2%nat
  /\ pending_request (fst run) = 1%nat.
Proof. repeat split. Qed.

(** ** The picture handed to the engine *)

Section Picture.

Context {E : Type} `{ISVCEncoder E}.

(** Lines 141-165.  Every call that reaches the engine ends its engine
    calls with one [EncodeFrame] on a picture in format I420 that has the
    width and height stored in the context at creation - not values of the
    caller - and the caller's three planes and three strides, in the order
    Y, U, V. *)
Theorem encode_submits_picture (ctx : encoder_context_t E) (eng : E)
  (y u v buf : list Byte.byte) (stride_y stride_u stride_v cap os ik : Z) :
  encoder ctx = Some eng ->
  exists before pic,
    calls (h264_encoder_encode (Some ctx) (Some y) (Some u) (Some v)
             stride_y stride_u stride_v (Some buf) cap (Some os) (Some ik))
    = before ++ [EvEncodeFrame pic]
    /\ count_events is_EvEncodeFrame before = 0%nat
    /\ iColorFormat pic = videoFormatI420
    /\ pic_iPicWidth pic = width ctx
    /\ pic_iPicHeight pic = height ctx
    /\ pData pic = [y; u; v]
    /\ iStride pic = [stride_y; stride_u; stride_v].
Proof.
  intros Hlive.
  destruct (EncodeFrame (engine_at_encode ctx eng)
              (source_picture ctx y u v stride_y stride_u stride_v))
    as [[r info] eng'] eqn:Hframe.
  destruct (encode_live_effects ctx eng eng' y u v buf stride_y stride_u stride_v
              cap os ik r info Hlive Hframe) as [Hcalls _].
  cbv zeta in Hcalls. rewrite Hcalls. unfold calls_of_encode.
  exists (if negb (force_idr ctx =? 0) then [EvForceIntraFrame true] else []).
  exists (source_picture ctx y u v stride_y stride_u stride_v).
  split; [reflexivity|].
  split; [destruct (negb (force_idr ctx =? 0)); reflexivity|].
  repeat split.
Qed.

End Picture.

Lemma encode_submits_picture_witness :
  exists before pic,
    calls (h264_encoder_encode (Some (scripted_ctx [(0, frame_idr)] 1))
             (Some plane) (Some plane) (Some plane) 2 1 1
             (Some buffer8) 8 (Some 77) (Some 55))
    = before ++ [EvEncodeFrame pic]
    /\ count_events is_EvEncodeFrame before = 0%nat
    /\ iColorFormat pic = videoFormatI420
    /\ pic_iPicWidth pic = width (scripted_ctx [(0, frame_idr)] 1)
    /\ pic_iPicHeight pic = height (scripted_ctx [(0, frame_idr)] 1)
    /\ pData pic = [plane; plane; plane]
    /\ iStride pic = [2; 1; 1].
Proof.
  apply (encode_submits_picture (scripted_ctx [(0, frame_idr)] 1) [(0, frame_idr)]
           plane plane plane buffer8 2 1 1 8 77 55).
  reflexivity.
Defined.
